(** * UI state capture with a human-in-the-loop login checkpoint

    A shallow embedding of [main.py]: the login-page classifier, the
    capture hook installed on the agent's step boundaries, the execution of
    one task and the batch loop, followed by the properties of the recorded
    episode trace.

    Modelling conventions.
    - Python [str] values are [string]s of 8-bit characters; [str.lower]
      and [str.isalnum] are modelled on the ASCII range.
    - A naive [datetime] is its count of microseconds on the time line; the
      text produced by [isoformat()] determines the datetime and is kept as
      that datetime, so [fromisoformat] is the identity.  A [timedelta] is a
      count of microseconds as well; [total_seconds()] only rescales it.
    - Exceptions are the ones derived from [Exception], carried by their
      text [str(e)].
    - The file system is a finite map from paths to contents; writing to
      it does not fail.
    - Every answer of the agent, the browser and the clock is an input:
      a step boundary reads them from a [page_env], a task from a
      [task_env]. *)

From Stdlib Require Import ZArith Ascii String.
From stdpp Require Import base tactics option list gmap strings.

Local Open Scope string_scope.
Local Open Scope list_scope.

(** ** Python string primitives *)

Module PyStr.

(** [c.lower()] on one ASCII character. *)
Definition lower_char (c : ascii) : ascii :=
  let n := nat_of_ascii c in
  if (65 <=? n)%nat && (n <=? 90)%nat then ascii_of_nat (n + 32) else c.

(** [s.lower()]. *)
Fixpoint lower (s : string) : string :=
  match s with
  | EmptyString => EmptyString
  | String c s' => String (lower_char c) (lower s')
  end.

(** [s.startswith(p)]. *)
Fixpoint startswith (p s : string) : bool :=
  match p, s with
  | EmptyString, _ => true
  | String _ _, EmptyString => false
  | String a p', String b s' => if Ascii.eqb a b then startswith p' s' else false
  end.

(** [p in s]: [p] occurs in [s] as a contiguous substring. *)
Fixpoint str_in (p s : string) : bool :=
  if startswith p s then true
  else match s with
       | EmptyString => false
       | String _ s' => str_in p s'
       end.

(** [s[:n]]. *)
Fixpoint take (n : nat) (s : string) : string :=
  match n, s with
  | O, _ => EmptyString
  | S _, EmptyString => EmptyString
  | S n', String c s' => String c (take n' s')
  end.

(** [c.isalnum()] on the ASCII range. *)
Definition isalnum (c : ascii) : bool :=
  let n := nat_of_ascii c in
  ((48 <=? n)%nat && (n <=? 57)%nat)
  || ((65 <=? n)%nat && (n <=? 90)%nat)
  || ((97 <=? n)%nat && (n <=? 122)%nat).

(** The join of [f c] for the characters [c] of [s], for a
    character-to-character [f]. *)
Fixpoint map_chars (f : ascii -> ascii) (s : string) : string :=
  match s with
  | EmptyString => EmptyString
  | String c s' => String (f c) (map_chars f s')
  end.

(** The character of one decimal digit. *)
Definition digit (d : nat) : ascii := ascii_of_nat (48 + d).

(** The decimal text of [n] is built from its last digit backwards; the
    fuel bounds the number of digits. *)
Fixpoint decimal_fuel (fuel n : nat) (acc : string) : string :=
  match fuel with
  | O => acc
  | S fuel' =>
      let acc' := String (digit (n mod 10)) acc in
      if (n <? 10)%nat then acc' else decimal_fuel fuel' (n / 10) acc'
  end.

(** [str(n)] for a non-negative integer. *)
Definition decimal (n : nat) : string := decimal_fuel (S n) n EmptyString.

Fixpoint zeros (k : nat) : string :=
  match k with
  | O => EmptyString
  | S k' => String "0" (zeros k')
  end.

(** [f"{n:03d}"]: the decimal text, left-padded with zeros to width 3. *)
Definition format_03d (n : nat) : string :=
  let d := decimal n in
  zeros (3 - String.length d) +:+ d.

(** [c * k] for a one-character string [c]. *)
Fixpoint repeat_char (c : ascii) (k : nat) : string :=
  match k with
  | O => EmptyString
  | S k' => String c (repeat_char c k')
  end.

(** The line feed. *)
Definition nl : string := String (ascii_of_nat 10) EmptyString.

End PyStr.

(** ** Login detection patterns *)

Definition LOGIN_URL_PATTERNS : list string :=
  [ "login"; "signin"; "sign-in"; "sign_in";
    "auth"; "authenticate"; "oauth";
    "signup" ].

Definition LOGIN_PAGE_INDICATORS : list string :=
  [ "password"; "email"; "username"; "sign in"; "log in";
    "forgot password"; "create account"; "register"; "signup" ].

(** [is_login_page(url, title)]: the first loop returns on the first URL
    pattern found in the lower-cased address, the second on the first
    indicator found in the lower-cased title. *)
Definition is_login_page (url title : string) : bool :=
  let url_lower := PyStr.lower url in
  let title_lower := PyStr.lower title in
  if existsb (fun pattern => PyStr.str_in pattern url_lower) LOGIN_URL_PATTERNS
  then true
  else if existsb (fun indicator => PyStr.str_in indicator title_lower) LOGIN_PAGE_INDICATORS
  then true
  else false.

(** [s] contains [p] when case is ignored on both sides. *)
Definition contains_ci (s p : string) : Prop :=
  exists a b, PyStr.lower s = a +:+ PyStr.lower p +:+ b.

(** ** Dataset schema *)

Definition datetime := Z.
Definition timedelta := Z.

Module CapturedStep.
Record t := {
  step_number : nat;
  timestamp : datetime;
  action_type : string;
  action_description : string;
  url : string;
  page_title : string;
  screenshot : string;
  duration_ms : option timedelta;
  success : bool;
  error_message : option string;
  required_manual_login : bool
}.
End CapturedStep.

Module CapturedWorkflow.
Record t := {
  task_id : string;
  original_query : string;
  transformed_task : string;
  app_name : string;
  app_url : string;
  started_at : datetime;
  completed_at : option datetime;
  total_duration_seconds : option timedelta;
  success : bool;
  steps : list CapturedStep.t;
  final_result : option string;
  error_summary : option string
}.

(** The constructor call of [execute_task]: the remaining fields take
    their declared defaults. *)
Definition new (task_id original_query transformed_task app_name app_url : string)
    (started_at : datetime) : t :=
  {| task_id := task_id; original_query := original_query;
     transformed_task := transformed_task; app_name := app_name;
     app_url := app_url; started_at := started_at;
     completed_at := None; total_duration_seconds := None;
     success := false; steps := []; final_result := None;
     error_summary := None |}.

Definition set_completed_at (v : option datetime) (w : t) : t :=
  {| task_id := task_id w; original_query := original_query w;
     transformed_task := transformed_task w; app_name := app_name w;
     app_url := app_url w; started_at := started_at w;
     completed_at := v; total_duration_seconds := total_duration_seconds w;
     success := success w; steps := steps w; final_result := final_result w;
     error_summary := error_summary w |}.

Definition set_total_duration_seconds (v : option timedelta) (w : t) : t :=
  {| task_id := task_id w; original_query := original_query w;
     transformed_task := transformed_task w; app_name := app_name w;
     app_url := app_url w; started_at := started_at w;
     completed_at := completed_at w; total_duration_seconds := v;
     success := success w; steps := steps w; final_result := final_result w;
     error_summary := error_summary w |}.

Definition set_success (v : bool) (w : t) : t :=
  {| task_id := task_id w; original_query := original_query w;
     transformed_task := transformed_task w; app_name := app_name w;
     app_url := app_url w; started_at := started_at w;
     completed_at := completed_at w;
     total_duration_seconds := total_duration_seconds w;
     success := v; steps := steps w; final_result := final_result w;
     error_summary := error_summary w |}.

Definition set_steps (v : list CapturedStep.t) (w : t) : t :=
  {| task_id := task_id w; original_query := original_query w;
     transformed_task := transformed_task w; app_name := app_name w;
     app_url := app_url w; started_at := started_at w;
     completed_at := completed_at w;
     total_duration_seconds := total_duration_seconds w;
     success := success w; steps := v; final_result := final_result w;
     error_summary := error_summary w |}.

Definition set_final_result (v : option string) (w : t) : t :=
  {| task_id := task_id w; original_query := original_query w;
     transformed_task := transformed_task w; app_name := app_name w;
     app_url := app_url w; started_at := started_at w;
     completed_at := completed_at w;
     total_duration_seconds := total_duration_seconds w;
     success := success w; steps := steps w; final_result := v;
     error_summary := error_summary w |}.

Definition set_error_summary (v : option string) (w : t) : t :=
  {| task_id := task_id w; original_query := original_query w;
     transformed_task := transformed_task w; app_name := app_name w;
     app_url := app_url w; started_at := started_at w;
     completed_at := completed_at w;
     total_duration_seconds := total_duration_seconds w;
     success := success w; steps := steps w; final_result := final_result w;
     error_summary := v |}.
End CapturedWorkflow.

(** The two [CapturedStep(...)] calls of the capture hook; the fields
    they do not name take the declared defaults ([duration_ms = None],
    [success = True], [error_message = None],
    [required_manual_login = False]). *)
Definition manual_login_step (step_num : nat) (now : datetime)
    (current_url current_title : string) : CapturedStep.t :=
  {| CapturedStep.step_number := step_num;
     CapturedStep.timestamp := now;
     CapturedStep.action_type := "manual_login";
     CapturedStep.action_description := "User manually logged in";
     CapturedStep.url := current_url;
     CapturedStep.page_title := current_title;
     CapturedStep.screenshot := EmptyString;
     CapturedStep.duration_ms := None;
     CapturedStep.success := true;
     CapturedStep.error_message := None;
     CapturedStep.required_manual_login := true |}.

Definition captured_step (step_num : nat) (now : datetime)
    (action_type action_desc current_url current_title filename : string)
    (duration_ms : option timedelta) : CapturedStep.t :=
  {| CapturedStep.step_number := step_num;
     CapturedStep.timestamp := now;
     CapturedStep.action_type := action_type;
     CapturedStep.action_description := action_desc;
     CapturedStep.url := current_url;
     CapturedStep.page_title := current_title;
     CapturedStep.screenshot := filename;
     CapturedStep.duration_ms := duration_ms;
     CapturedStep.success := true;
     CapturedStep.error_message := None;
     CapturedStep.required_manual_login := false |}.

(** ** Configuration *)

Record app_config := { cfg_url : string; cfg_name : string }.

(** [APP_CONFIG], in the insertion order its iteration follows. *)
Definition APP_CONFIG : list (string * app_config) :=
  [ ("linear", {| cfg_url := "https://linear.app"; cfg_name := "Linear" |});
    ("notion", {| cfg_url := "https://notion.so"; cfg_name := "Notion" |});
    ("asana", {| cfg_url := "https://app.asana.com"; cfg_name := "Asana" |});
    ("github", {| cfg_url := "https://github.com"; cfg_name := "GitHub" |}) ].

Fixpoint detect_app_in (input_lower : string) (items : list (string * app_config))
  : string * app_config :=
  match items with
  | [] => ("unknown", {| cfg_url := EmptyString; cfg_name := "Unknown" |})
  | (app_key, config) :: rest =>
      if PyStr.str_in app_key input_lower then (app_key, config)
      else detect_app_in input_lower rest
  end.

Definition detect_app (user_input : string) : string * app_config :=
  detect_app_in (PyStr.lower user_input) APP_CONFIG.

Definition transform_to_action_task (user_input : string) (config : app_config) : string :=
  let app_url := cfg_url config in
  let app_name := cfg_name config in
  "TASK: " +:+ user_input +:+ PyStr.nl +:+
  PyStr.nl +:+
  "INSTRUCTIONS:" +:+ PyStr.nl +:+
  "1. Navigate to " +:+ app_url +:+ " if not already there" +:+ PyStr.nl +:+
  "2. Perform the requested action by interacting with the UI directly" +:+ PyStr.nl +:+
  PyStr.nl +:+
  "CONSTRAINTS:" +:+ PyStr.nl +:+
  "- ONLY interact with " +:+ app_name +:+ " UI" +:+ PyStr.nl +:+
  "- NEVER search the web or open documentation  " +:+ PyStr.nl +:+
  "- NEVER navigate away from " +:+ app_name +:+ " domains" +:+ PyStr.nl +:+
  "- If you know that completing this task would require logging in, navigate there first" +:+ PyStr.nl +:+
  "- If you see a login page, STOP and wait - the user will log in manually" +:+ PyStr.nl +:+
  PyStr.nl +:+
  "COMPLETION: Task is complete when the requested action has been performed.".

(** ** Effects: exceptions, the world and the episode state *)

Inductive exn := Exception (text : string).

(** [str(e)]. *)
Definition str_exn (e : exn) : string :=
  match e with Exception text => text end.

Inductive outcome (A : Type) :=
| Ok (a : A)
| Raise (e : exn).
Arguments Ok {A} a.
Arguments Raise {A} e.

Definition bytes := list Byte.byte.

(** What a path holds: a directory, the bytes of a screenshot, or the JSON
    dump of a workflow, kept as the workflow it serialises. *)
Inductive file :=
| Directory
| BinaryFile (content : bytes)
| WorkflowJson (w : CapturedWorkflow.t).

(** The calls made on the agent, the console and the shared browser. *)
Inductive driver_call := Pause | ReadInput | Resume | Kill.

Record world := {
  fs : gmap string file;
  stdout : list string;
  driver : list driver_call
}.

(** The closure dictionary [step_data] of [create_capture_hook]. *)
Module StepData.
Record t := {
  count : nat;
  step_start_time : option datetime;
  login_handled : bool;
  waiting_for_login : bool
}.
End StepData.

(** An assignment to an attribute of the workflow object made by
    [execute_task]. *)
Inductive assignment :=
| Assign_completed_at (v : datetime)
| Assign_success (v : bool)
| Assign_final_result (v : string)
| Assign_total_duration_seconds (v : timedelta)
| Assign_error_summary (v : string).

(** One episode in flight: the world, the hook's dictionary, the workflow
    object that [execute_task] and the hook share, and the history of the
    assignments made to the workflow's terminal attributes. *)
Record episode := {
  ep_world : world;
  step_data : StepData.t;
  workflow : CapturedWorkflow.t;
  assignments : list assignment
}.

(** Computations over an episode that return or raise. *)
Definition M (A : Type) : Type := episode -> outcome A * episode.

Definition ret {A} (a : A) : M A := fun s => (Ok a, s).

Definition bind {A B} (m : M A) (k : A -> M B) : M B :=
  fun s =>
    match m s with
    | (Ok a, s') => k a s'
    | (Raise e, s') => (Raise e, s')
    end.

Definition raise {A} (e : exn) : M A := fun s => (Raise e, s).

(** [try: m except Exception as e: handler e]. *)
Definition try_except {A} (m : M A) (handler : exn -> M A) : M A :=
  fun s =>
    match m s with
    | (Ok a, s') => (Ok a, s')
    | (Raise e, s') => handler e s'
    end.

Notation "x <- c1 ;; c2" := (bind c1 (fun x => c2))
  (at level 100, c1 at next level, c2 at level 200, right associativity).
Notation "c1 ;; c2" := (bind c1 (fun _ => c2))
  (at level 100, c2 at level 200, right associativity).

(** The value or the exception an external call answers with. *)
Definition await {A} (o : outcome A) : M A := fun s => (o, s).

Definition gets {A} (f : episode -> A) : M A := fun s => (Ok (f s), s).

Definition modify (f : episode -> episode) : M unit := fun s => (Ok tt, f s).

Definition with_world (f : world -> world) (s : episode) : episode :=
  {| ep_world := f (ep_world s); step_data := step_data s;
     workflow := workflow s; assignments := assignments s |}.

Definition with_step_data (f : StepData.t -> StepData.t) (s : episode) : episode :=
  {| ep_world := ep_world s; step_data := f (step_data s);
     workflow := workflow s; assignments := assignments s |}.

Definition with_workflow (f : CapturedWorkflow.t -> CapturedWorkflow.t)
    (s : episode) : episode :=
  {| ep_world := ep_world s; step_data := step_data s;
     workflow := f (workflow s); assignments := assignments s |}.

Definition with_assignment (a : assignment) (s : episode) : episode :=
  {| ep_world := ep_world s; step_data := step_data s;
     workflow := workflow s; assignments := assignments s ++ [a] |}.

(** [print(line)], on the world and inside an episode. *)
Definition print_line (line : string) (w : world) : world :=
  {| fs := fs w; stdout := stdout w ++ [line]; driver := driver w |}.

Definition print (line : string) : M unit :=
  modify (with_world (print_line line)).

(** A call on the agent, the console or the browser: it is made, then
    returns or raises. *)
Definition record_call (c : driver_call) (w : world) : world :=
  {| fs := fs w; stdout := stdout w; driver := driver w ++ [c] |}.

Definition call (c : driver_call) (answer : outcome unit) : M unit :=
  modify (with_world (record_call c)) ;;
  await answer.

(** [path.write_bytes], [path.write_text] and [path.mkdir]. *)
Definition write_file (path : string) (f : file) : M unit :=
  modify (with_world (fun w =>
    {| fs := <[path := f]> (fs w); stdout := stdout w; driver := driver w |})).

(** [Path(dir) / name]. *)
Definition path_join (dir name : string) : string := dir +:+ "/" +:+ name.

Definition set_count (v : nat) : M unit :=
  modify (with_step_data (fun d =>
    {| StepData.count := v;
       StepData.step_start_time := StepData.step_start_time d;
       StepData.login_handled := StepData.login_handled d;
       StepData.waiting_for_login := StepData.waiting_for_login d |})).

Definition set_step_start_time (v : option datetime) : M unit :=
  modify (with_step_data (fun d =>
    {| StepData.count := StepData.count d;
       StepData.step_start_time := v;
       StepData.login_handled := StepData.login_handled d;
       StepData.waiting_for_login := StepData.waiting_for_login d |})).

Definition set_login_handled (v : bool) : M unit :=
  modify (with_step_data (fun d =>
    {| StepData.count := StepData.count d;
       StepData.step_start_time := StepData.step_start_time d;
       StepData.login_handled := v;
       StepData.waiting_for_login := StepData.waiting_for_login d |})).

Definition set_waiting_for_login (v : bool) : M unit :=
  modify (with_step_data (fun d =>
    {| StepData.count := StepData.count d;
       StepData.step_start_time := StepData.step_start_time d;
       StepData.login_handled := StepData.login_handled d;
       StepData.waiting_for_login := v |})).

(** [workflow.steps.append(step)]. *)
Definition append_step (step : CapturedStep.t) : M unit :=
  modify (with_workflow (fun w =>
    CapturedWorkflow.set_steps (CapturedWorkflow.steps w ++ [step]) w)).

(** An assignment [workflow.<attribute> = v]. *)
Definition assign (a : assignment) : M unit :=
  modify (fun s =>
    with_assignment a
      (with_workflow
         (match a with
          | Assign_completed_at v => CapturedWorkflow.set_completed_at (Some v)
          | Assign_success v => CapturedWorkflow.set_success v
          | Assign_final_result v => CapturedWorkflow.set_final_result (Some v)
          | Assign_total_duration_seconds v =>
              CapturedWorkflow.set_total_duration_seconds (Some v)
          | Assign_error_summary v => CapturedWorkflow.set_error_summary (Some v)
          end) s)).

(** ** The platform functions the program calls *)

Class Runtime := {
  (** [base64.b64decode(s)]: the decoded bytes, or [binascii.Error]. *)
  b64decode : string -> outcome bytes;
  (** [d.strftime("%Y%m%d_%H%M%S")]. *)
  strftime : datetime -> string
}.

(** ** What the agent and the browser answer during one step boundary *)

(** An entry of [agent.history.model_actions()], or the list wrapping
    entries: its [name] attribute when it has one, its type's name and
    its [str]. *)
#[warnings="-register-all"]
Inductive action :=
| ActionObject (name : option string) (type_name : string) (text : string)
| ActionList (items : list action) (text : string).

(** The value of the screenshot event. *)
Inductive screenshot_value :=
| ShotBytes (b : bytes)
| ShotStr (s : string)
| ShotOther (text : string).

Record page_env := {
  (** [get_browser_state_summary()]: [None], or a state and its [url]. *)
  browser_state : outcome (option string);
  (** [get_current_page_title()]. *)
  current_page_title : outcome (option string);
  pause_answer : outcome unit;
  input_answer : outcome unit;
  resume_answer : outcome unit;
  (** the dispatch of [ScreenshotEvent] and its [event_result]. *)
  screenshot_answer : outcome screenshot_value;
  model_actions : outcome (list action);
  (** [datetime.now()] where the duration is taken and where the record
      is stamped. *)
  now_duration : datetime;
  now_timestamp : datetime
}.

(** [getattr(last, 'name', str(type(last).__name__))]. *)
Definition action_name (a : action) : string :=
  match a with
  | ActionObject (Some name) _ _ => name
  | ActionObject None type_name _ => type_name
  | ActionList _ _ => "list"
  end.

(** [str(last)]. *)
Definition action_str (a : action) : string :=
  match a with
  | ActionObject _ _ text => text
  | ActionList _ text => text
  end.

(** The label and the description of the last action, ["initial"] and
    ["Initial state"] when there is none. *)
Definition describe_actions (actions : list action) : string * string :=
  match last actions with
  | None => ("initial", "Initial state")
  | Some l =>
      let l' := match l with
                | ActionList (first :: _) _ => first
                | _ => l
                end in
      (action_name l', PyStr.take 200 (action_str l'))
  end.

(** [x or default] on an optional string: [None] and the empty string
    are falsy. *)
Definition or_default (x : option string) (default : string) : string :=
  match x with
  | Some EmptyString | None => default
  | Some s => s
  end.

(** ** The capture hook with login detection *)

(** The dictionary [create_capture_hook] starts from. *)
Definition initial_step_data : StepData.t :=
  {| StepData.count := 0;
     StepData.step_start_time := None;
     StepData.login_handled := false;
     StepData.waiting_for_login := false |}.

(** [f"step_{step_num:03d}.png"]. *)
Definition screenshot_filename (step_num : nat) : string :=
  "step_" +:+ PyStr.format_03d step_num +:+ ".png".

Definition on_step_start (now : datetime) : M unit :=
  set_step_start_time (Some now).

Section Hook.
Context `{Runtime}.

(** The capture of an ordinary step: screenshot, file, label, record. *)
Definition capture_step (output_dir : string) (env : page_env) (step_num : nat)
    (current_url current_title : string) : M unit :=
  screenshot_result <- await (screenshot_answer env) ;;
  screenshot_bytes <-
    match screenshot_result with
    | ShotBytes b => ret b
    | ShotStr s => await (b64decode s)
    | ShotOther text => await (b64decode text)
    end ;;
  let filename := screenshot_filename step_num in
  write_file (path_join output_dir filename) (BinaryFile screenshot_bytes) ;;
  actions <- await (model_actions env) ;;
  let '(action_type, action_desc) := describe_actions actions in
  start <- gets (fun s => StepData.step_start_time (step_data s)) ;;
  let duration_ms :=
    match start with
    | Some t0 => Some (now_duration env - t0)%Z
    | None => None
    end in
  append_step (captured_step step_num (now_timestamp env) action_type
                 action_desc current_url current_title filename duration_ms) ;;
  print ("Step " +:+ PyStr.decimal step_num +:+ ": " +:+ action_type).

(** The handoff to the user on a login page. *)
Definition manual_login (env : page_env) (step_num : nat)
    (current_url current_title : string) : M unit :=
  set_waiting_for_login true ;;
  print (PyStr.nl +:+ PyStr.repeat_char "=" 60) ;;
  print "LOGIN PAGE DETECTED" ;;
  print (PyStr.repeat_char "=" 60) ;;
  print ("   URL: " +:+ current_url) ;;
  print ("   Title: " +:+ current_title) ;;
  print (PyStr.nl +:+ "   Please log in manually in the browser window.") ;;
  print "   Press ENTER here when you are done logging in." ;;
  print (PyStr.repeat_char "=" 60 +:+ PyStr.nl) ;;
  call Pause (pause_answer env) ;;
  call ReadInput (input_answer env) ;;
  call Resume (resume_answer env) ;;
  set_login_handled true ;;
  set_waiting_for_login false ;;
  print ("Login completed. Resuming agent." +:+ PyStr.nl) ;;
  append_step (manual_login_step step_num (now_timestamp env)
                 current_url current_title).

(** The body of the [try] of [on_step_end]. *)
Definition on_step_end_body (output_dir : string) (env : page_env)
    (step_num : nat) : M unit :=
  state <- await (browser_state env) ;;
  let current_url := match state with Some u => u | None => "unknown" end in
  title <- await (current_page_title env) ;;
  let current_title := or_default title "untitled" in
  handled <- gets (fun s => StepData.login_handled (step_data s)) ;;
  if is_login_page current_url current_title && negb handled
  then manual_login env step_num current_url current_title
  else capture_step output_dir env step_num current_url current_title.

Definition on_step_end (output_dir : string) (env : page_env) : M unit :=
  n <- gets (fun s => StepData.count (step_data s)) ;;
  set_count (n + 1) ;;
  step_num <- gets (fun s => StepData.count (step_data s)) ;;
  try_except (on_step_end_body output_dir env step_num)
             (fun e => print ("Capture error: " +:+ str_exn e)).

(** ** The agent's run, seen from the hooks *)

Inductive hook_call :=
| StepStart (now : datetime)
| StepEnd (env : page_env).

Definition run_hook (output_dir : string) (c : hook_call) : M unit :=
  match c with
  | StepStart now => on_step_start now
  | StepEnd env => on_step_end output_dir env
  end.

Fixpoint run_hooks (output_dir : string) (calls : list hook_call) : M unit :=
  match calls with
  | [] => ret tt
  | c :: rest => run_hook output_dir c ;; run_hooks output_dir rest
  end.

(** What [agent.run] returns: its truth value and its [str]. *)
Record run_result := {
  truthy : bool;
  result_str : outcome string
}.

(** [agent.run(on_step_start, on_step_end, max_steps)]: the hook calls
    the agent makes, then the result it returns or the exception it
    raises. *)
Definition agent_run (output_dir : string) (calls : list hook_call)
    (answer : outcome run_result) : M run_result :=
  run_hooks output_dir calls ;;
  await answer.

End Hook.


(** ** The execution of one task *)

(** What the clock and the agent answer during one [execute_task]. *)
Record task_env := {
  (** [datetime.now()] for the directory stamp and for [started_at]. *)
  now_stamp : datetime;
  now_started : datetime;
  (** the run of the agent. *)
  hook_calls : list hook_call;
  run_answer : outcome run_result;
  (** [datetime.now()] in the [try] and in the [except] branch. *)
  now_completed : datetime;
  now_failed : datetime
}.

(** The slug of the request: its first 40 characters, everything but
    letters and digits turned into ["_"]. *)
Definition safe_name (user_input : string) : string :=
  PyStr.map_chars (fun c => if Ascii.eqb c " " then "_"%char else c)
    (PyStr.map_chars
       (fun c => if PyStr.isalnum c || Ascii.eqb c " " then c else "_"%char)
       (PyStr.take 40 user_input)).

(** A missing or empty environment variable is falsy. *)
Definition api_key_missing (api_key : option string) : bool :=
  match api_key with
  | None | Some EmptyString => true
  | Some _ => false
  end.

Section Task.
Context `{Runtime}.

(** The directory of the episode. *)
Definition output_dir_of (user_input : string) (env : task_env) : string :=
  let timestamp := strftime (now_stamp env) in
  let app_key := fst (detect_app user_input) in
  path_join "ui_dataset"
    (timestamp +:+ "_" +:+ app_key +:+ "_" +:+ safe_name user_input).

(** The workflow object [execute_task] creates. *)
Definition new_workflow (user_input : string) (env : task_env) : CapturedWorkflow.t :=
  let timestamp := strftime (now_stamp env) in
  let '(app_key, config) := detect_app user_input in
  CapturedWorkflow.new (timestamp +:+ "_" +:+ app_key) user_input
    (transform_to_action_task user_input config)
    (cfg_name config) (cfg_url config) (now_started env).

(** [str(result) if result else "Completed"]. *)
Definition final_text (result : run_result) : outcome string :=
  if truthy result then result_str result else Ok "Completed".

(** The statements of the [try] that follow [agent.run]. *)
Definition on_run_returned (env : task_env) (result : run_result) : M unit :=
  assign (Assign_completed_at (now_completed env)) ;;
  assign (Assign_success true) ;;
  final <- await (final_text result) ;;
  assign (Assign_final_result final) ;;
  start <- gets (fun s => CapturedWorkflow.started_at (workflow s)) ;;
  completed <- gets (fun s => CapturedWorkflow.completed_at (workflow s)) ;;
  match completed with
  | Some end_ => assign (Assign_total_duration_seconds (end_ - start)%Z)
  | None => raise (Exception "fromisoformat: argument must be str")
  end.

(** The [except Exception as e] branch. *)
Definition on_run_raised (env : task_env) (e : exn) : M unit :=
  print (PyStr.nl +:+ "Failed: " +:+ str_exn e) ;;
  assign (Assign_completed_at (now_failed env)) ;;
  assign (Assign_success false) ;;
  assign (Assign_error_summary (str_exn e)).

(** [execute_task] from the banner to the start of the agent.  The
    [mkdir(parents=True, exist_ok=True)] makes the parent [ui_dataset]
    and then the directory of the episode; directories that exist stay
    as they are. *)
Definition announce (user_input output_dir : string) : M unit :=
  print (PyStr.nl +:+ PyStr.repeat_char "=" 70) ;;
  print ("TASK: " +:+ user_input) ;;
  print (PyStr.repeat_char "=" 70) ;;
  print ("App: " +:+ cfg_name (snd (detect_app user_input))) ;;
  write_file "ui_dataset" Directory ;;
  write_file output_dir Directory ;;
  print "Starting agent." ;;
  print ("If login appears, you will log in manually." +:+ PyStr.nl).

(** The [try] and its [except Exception]. *)
Definition attempt (output_dir : string) (env : task_env) : M unit :=
  try_except
    (result <- agent_run output_dir (hook_calls env) (run_answer env) ;;
     on_run_returned env result)
    (on_run_raised env).

(** The dump of the workflow into [workflow.json] and the [return]. *)
Definition persist (output_dir : string) : M CapturedWorkflow.t :=
  dump <- gets workflow ;;
  write_file (path_join output_dir "workflow.json") (WorkflowJson dump) ;;
  print ("Saved to: " +:+ output_dir) ;;
  gets workflow.

Definition run_episode (user_input : string) (env : task_env) : M CapturedWorkflow.t :=
  let output_dir := output_dir_of user_input env in
  announce user_input output_dir ;;
  attempt output_dir env ;;
  persist output_dir.

(** The episode [execute_task] starts: a fresh workflow and a fresh hook
    dictionary over the current world. *)
Definition new_episode (user_input : string) (env : task_env) (w : world) : episode :=
  {| ep_world := w;
     step_data := initial_step_data;
     workflow := new_workflow user_input env;
     assignments := [] |}.

Definition execute_task (api_key : option string) (user_input : string)
    (env : task_env) (w : world) : outcome CapturedWorkflow.t * world :=
  if api_key_missing api_key
  then (Raise (Exception "Missing GOOGLE_API_KEY"), w)
  else
    let '(r, s) := run_episode user_input env (new_episode user_input env w) in
    (r, ep_world s).

(** ** The batch *)

(** The loop of [main] over the queued tasks; the workflows the calls
    return are collected in order. *)
Fixpoint run_tasks (api_key : option string) (batch : list (string * task_env))
    (w : world) : outcome (list CapturedWorkflow.t) * world :=
  match batch with
  | [] => (Ok [], w)
  | (task, env) :: rest =>
      match execute_task api_key task env w with
      | (Ok wf, w') =>
          match run_tasks api_key rest w' with
          | (Ok wfs, w'') => (Ok (wf :: wfs), w'')
          | (Raise e, w'') => (Raise e, w'')
          end
      | (Raise e, w') => (Raise e, w')
      end
  end.

Definition TASKS : list string :=
  [ "How do I create a project in Linear?";
    "How do I filter issues by status in Linear?";
    "How do I delete a project in Linear?";
    "How do I create a table database named Sprint Tracker and in Notion?";
    "How do i delete the sprint tracker database in Notion?" ].

(** [main]: [env_of i] is what the clock and the agent answer during the
    task of index [i], [kill_answer] what [browser.kill()] answers. *)
Definition main (api_key : option string) (env_of : nat -> task_env)
    (kill_answer : outcome unit) (w : world)
  : outcome (list CapturedWorkflow.t) * world :=
  if api_key_missing api_key
  then (Raise (Exception "Missing GOOGLE_API_KEY"), w)
  else
    let w1 := print_line (PyStr.nl +:+ "Initializing shared Browser and LLM settings."
                            +:+ PyStr.nl) w in
    match run_tasks api_key (imap (fun i task => (task, env_of i)) TASKS) w1 with
    | (Ok wfs, w2) =>
        let w3 := print_line (PyStr.nl +:+ "Closing shared browser...") w2 in
        let w4 := record_call Kill w3 in
        match kill_answer with
        | Ok _ => (Ok wfs, print_line "Browser closed." w4)
        | Raise e => (Raise e, w4)
        end
    | (Raise e, w2) => (Raise e, w2)
    end.

End Task.

(** The world before the program has run. *)
Definition empty_world : world := {| fs := ∅; stdout := []; driver := [] |}.

(** ** Observations on an episode *)

Definition sd_count (s : episode) : nat := StepData.count (step_data s).
Definition latch (s : episode) : bool := StepData.login_handled (step_data s).
Definition waiting (s : episode) : bool := StepData.waiting_for_login (step_data s).
Definition ep_steps (s : episode) : list CapturedStep.t :=
  CapturedWorkflow.steps (workflow s).
Definition ep_driver (s : episode) : list driver_call := driver (ep_world s).
Definition ep_stdout (s : episode) : list string := stdout (ep_world s).

(** The records of a trace that mark a manual login. *)
Definition manual_steps (l : list CapturedStep.t) : list CapturedStep.t :=
  List.filter CapturedStep.required_manual_login l.

(** The number of step boundaries among the hook calls of a run. *)
Fixpoint step_ends (calls : list hook_call) : nat :=
  match calls with
  | [] => 0
  | StepStart _ :: rest => step_ends rest
  | StepEnd _ :: rest => S (step_ends rest)
  end.

(** The state a sequence of hook calls leaves. *)
Definition after_hooks `{Runtime} (output_dir : string) (calls : list hook_call)
    (s : episode) : episode :=
  snd (run_hooks output_dir calls s).

(** The episode [create_capture_hook] is installed on: a fresh dictionary
    and a workflow without steps. *)
Definition fresh (s : episode) : Prop :=
  step_data s = initial_step_data /\ ep_steps s = [].

(** What one [on_step_end] does to the trace, the latch and the agent:
    nothing is appended (the body raised), the manual-login record is
    appended, or the record of a captured step is. *)
Inductive hook_step (s s' : episode) : Prop :=
| hook_step_failed :
    ep_steps s' = ep_steps s ->
    latch s' = latch s ->
    (latch s = true -> waiting s' = waiting s /\ ep_driver s' = ep_driver s) ->
    hook_step s s'
| hook_step_manual (now : datetime) (u t : string) :
    latch s = false ->
    latch s' = true ->
    waiting s' = false ->
    ep_steps s' = ep_steps s ++ [manual_login_step (S (sd_count s)) now u t] ->
    hook_step s s'
| hook_step_captured (now : datetime) (a d u t : string) (ms : option timedelta) :
    latch s' = latch s ->
    waiting s' = waiting s ->
    ep_driver s' = ep_driver s ->
    ep_steps s' = ep_steps s ++
      [captured_step (S (sd_count s)) now a d u t
         (screenshot_filename (S (sd_count s))) ms] ->
    hook_step s s'.

(** What no hook call touches: the workflow changes in its steps only,
    and no terminal attribute is assigned. *)
Definition hook_frame (s s' : episode) : Prop :=
  workflow s' = CapturedWorkflow.set_steps (ep_steps s') (workflow s)
  /\ assignments s' = assignments s.

(** ** Scenarios *)

Module Scenario.

(** Two digits of a clock field. *)
Definition two_digits (n : nat) : string :=
  (if (n <? 10)%nat then "0" else EmptyString) +:+ PyStr.decimal n.

(** A runtime for the scenarios.  Instants are counted from
    2025-01-01T00:00:00 and stay within that day, where the stamp is
    [20250101_HHMMSS]; the only text decoded is the empty one, which
    holds no bytes. *)
Definition stamp (d : datetime) : string :=
  let secs := Z.to_nat (d / 1000000) in
  "20250101_" +:+ two_digits ((secs / 3600) mod 24)
    +:+ two_digits ((secs / 60) mod 60) +:+ two_digits (secs mod 60).

Definition decode (s : string) : outcome bytes :=
  match s with
  | EmptyString => Ok []
  | _ => Raise (Exception "Incorrect padding")
  end.

Definition runtime : Runtime := {| b64decode := decode; strftime := stamp |}.

(** A page that answers every call: its address, its title, a PNG
    signature for screenshot, no action yet. *)
Definition page (address title : string) (now : datetime) : page_env :=
  {| browser_state := Ok (Some address);
     current_page_title := Ok (Some title);
     pause_answer := Ok tt;
     input_answer := Ok tt;
     resume_answer := Ok tt;
     screenshot_answer := Ok (ShotBytes [Byte.x89; Byte.x50; Byte.x4e; Byte.x47]);
     model_actions := Ok [];
     now_duration := now;
     now_timestamp := now |}.

(** The browser does not report its state. *)
Definition page_unreachable (now : datetime) : page_env :=
  {| browser_state := Raise (Exception "browser disconnected");
     current_page_title := Ok (Some "Team Board");
     pause_answer := Ok tt;
     input_answer := Ok tt;
     resume_answer := Ok tt;
     screenshot_answer := Ok (ShotBytes []);
     model_actions := Ok [];
     now_duration := now;
     now_timestamp := now |}.

(** The screenshot event fails. *)
Definition page_without_screenshot (address title : string) (now : datetime) : page_env :=
  {| browser_state := Ok (Some address);
     current_page_title := Ok (Some title);
     pause_answer := Ok tt;
     input_answer := Ok tt;
     resume_answer := Ok tt;
     screenshot_answer := Raise (Exception "screenshot timed out");
     model_actions := Ok [];
     now_duration := now;
     now_timestamp := now |}.

(** A login page on which [agent.pause()] raises. *)
Definition page_pause_raises (address title : string) (now : datetime) : page_env :=
  {| browser_state := Ok (Some address);
     current_page_title := Ok (Some title);
     pause_answer := Raise (Exception "agent is not running");
     input_answer := Ok tt;
     resume_answer := Ok tt;
     screenshot_answer := Ok (ShotBytes []);
     model_actions := Ok [];
     now_duration := now;
     now_timestamp := now |}.

Definition board : string := "https://linear.app/team/board".
Definition login : string := "https://linear.app/login".

(** A result of [agent.run] that is truthy and prints as [text]. *)
Definition done (text : string) : run_result :=
  {| truthy := true; result_str := Ok text |}.

(** A result of [agent.run] whose [str] raises. *)
Definition unprintable : run_result :=
  {| truthy := true; result_str := Raise (Exception "history is not serialisable") |}.

(** An episode at its start, over the empty world. *)
Definition start : episode :=
  {| ep_world := empty_world;
     step_data := initial_step_data;
     workflow := CapturedWorkflow.new "20250101_120000_linear" "q" "t" "Linear"
                   "https://linear.app" 43200000000%Z;
     assignments := [] |}.

Definition dir : string := "ui_dataset/20250101_120000_linear_q".

(** Three step boundaries; the second one meets the login page. *)
Definition three_steps : list hook_call :=
  [ StepStart 43201000000%Z; StepEnd (page board "Team Board" 43202000000%Z);
    StepStart 43203000000%Z; StepEnd (page login "Log in to Linear" 43204000000%Z);
    StepStart 43205000000%Z; StepEnd (page login "Log in to Linear" 43206000000%Z) ].

(** Two step boundaries; the first one cannot observe the browser. *)
Definition first_capture_fails : list hook_call :=
  [ StepStart 43201000000%Z; StepEnd (page_unreachable 43202000000%Z);
    StepStart 43203000000%Z; StepEnd (page board "Team Board" 43204000000%Z) ].

(** The environment of one task. *)
Definition task (calls : list hook_call) (answer : outcome run_result) : task_env :=
  {| now_stamp := 43200000000%Z;
     now_started := 43200000000%Z;
     hook_calls := calls;
     run_answer := answer;
     now_completed := 43260000000%Z;
     now_failed := 43261000000%Z |}.

Definition query : string := "How do I create a project in Linear?".



(** One step boundary, on the login page, where the pause raises. *)
Definition pause_raises : list hook_call :=
  [ StepStart 43201000000%Z;
    StepEnd (page_pause_raises login "Log in to Linear" 43202000000%Z) ].

End Scenario.

(** ** Invariants of the trace *)

(** The ordinals of the trace against the counter of the hook: there are
    no more records than step boundaries, the record at index [i] carries
    an ordinal from [i + 1] on that leaves room below the counter for the
    records after it, and ordinals grow strictly along the trace. *)
Definition numbered (s : episode) : Prop :=
  length (ep_steps s) <= sd_count s
  /\ (forall i r, ep_steps s !! i = Some r ->
        i + 1 <= CapturedStep.step_number r
        /\ CapturedStep.step_number r + (length (ep_steps s) - 1 - i) <= sd_count s)
  /\ (forall i j ri rj, i < j ->
        ep_steps s !! i = Some ri -> ep_steps s !! j = Some rj ->
        CapturedStep.step_number ri < CapturedStep.step_number rj).

(** The ordinals of a finished trace against the [n] step boundaries of
    its run: they grow strictly, the record at index [i] carries an
    ordinal between [i + 1] and [n], and it carries [i + 1] when every
    step boundary appended its record. *)
Definition follows_boundaries (n : nat) (trace : list CapturedStep.t) : Prop :=
  (forall i j ri rj, i < j ->
     trace !! i = Some ri -> trace !! j = Some rj ->
     CapturedStep.step_number ri < CapturedStep.step_number rj)
  /\ (forall i r, trace !! i = Some r ->
        i + 1 <= CapturedStep.step_number r /\ CapturedStep.step_number r <= n)
  /\ (length trace = n ->
      forall i r, trace !! i = Some r -> CapturedStep.step_number r = i + 1).

(** What one step boundary does to the counter and the trace: the
    counter advances, and the record appended, if any, carries the new
    value of the counter. *)
Definition counts_boundary (s s' : episode) : Prop :=
  sd_count s' = S (sd_count s)
  /\ (ep_steps s' = ep_steps s
      \/ exists r, ep_steps s' = ep_steps s ++ [r]
                  /\ CapturedStep.step_number r = sd_count s').

(** The latch against the trace: at most one manual-login record, none
    while the latch is open, and no wait pending once it is set. *)
Definition one_handoff (s : episode) : Prop :=
  length (manual_steps (ep_steps s)) <= 1
  /\ (latch s = false -> manual_steps (ep_steps s) = [])
  /\ (latch s = true -> waiting s = false).

(** The record comes from the manual-login call of the hook. *)
Definition manual_record (r : CapturedStep.t) : Prop :=
  exists n now u t, r = manual_login_step n now u t.

(** The record comes from the capture call of the hook. *)
Definition captured_record (r : CapturedStep.t) : Prop :=
  exists n now a d u t ms,
    r = captured_step n now a d u t (screenshot_filename n) ms.

(** A record of the trace is either the manual-login record, without
    screenshot, successful and flagged, or the record of a captured
    step, which is not flagged. *)
Definition from_hook (r : CapturedStep.t) : Prop :=
  (manual_record r
   /\ CapturedStep.screenshot r = EmptyString
   /\ CapturedStep.success r = true
   /\ CapturedStep.required_manual_login r = true)
  \/ (captured_record r /\ CapturedStep.required_manual_login r = false).

(** From [mid] to [fin] the latch stays set, no wait is pending, no
    manual-login record was added and the agent was not called. *)
Definition latched_as (mid fin : episode) : Prop :=
  latch fin = true
  /\ waiting fin = false
  /\ manual_steps (ep_steps fin) = manual_steps (ep_steps mid)
  /\ ep_driver fin = ep_driver mid.

(** The step boundary from [s] to [s'] swallowed the exception [e]: the
    counter advanced, the error was printed last, and the trace, the
    workflow, its assignments and the latch are as they were. *)
Definition swallowed (e : exn) (s s' : episode) : Prop :=
  ep_steps s' = ep_steps s
  /\ workflow s' = workflow s
  /\ assignments s' = assignments s
  /\ sd_count s' = S (sd_count s)
  /\ latch s' = latch s
  /\ last (ep_stdout s') = Some ("Capture error: " +:+ str_exn e).


(** The workflow after the terminal assignments of the [try]. *)
Definition finished (now : datetime) (final : string) (w : CapturedWorkflow.t)
  : CapturedWorkflow.t :=
  CapturedWorkflow.set_total_duration_seconds
    (Some (now - CapturedWorkflow.started_at w)%Z)
    (CapturedWorkflow.set_final_result (Some final)
       (CapturedWorkflow.set_success true
          (CapturedWorkflow.set_completed_at (Some now) w))).

(** The workflow after the terminal assignments of the [except]. *)
Definition failed (now : datetime) (e : exn) (w : CapturedWorkflow.t)
  : CapturedWorkflow.t :=
  CapturedWorkflow.set_error_summary (Some (str_exn e))
    (CapturedWorkflow.set_success false
       (CapturedWorkflow.set_completed_at (Some now) w)).

(** The exception the [except] branch of a task catches, if any: the one
    [agent.run] raises, or the one the [str] of its result raises. *)
Definition caught (env : task_env) : option exn :=
  match run_answer env with
  | Raise e => Some e
  | Ok result =>
      match final_text result with
      | Raise e => Some e
      | Ok _ => None
      end
  end.

(** The run raises, or it returns a result whose text can be taken. *)
Definition result_prints (env : task_env) : bool :=
  match run_answer env with
  | Raise _ => true
  | Ok result =>
      match final_text result with
      | Ok _ => true
      | Raise _ => false
      end
  end.

(** The terminal fields of the workflow of a task against the answer of
    its agent: [completed_at] is set; a success has a final result,
    ["Completed"] for a falsy result, and no error summary; a failure has
    the text of the exception caught as error summary and no final
    result. *)
Definition exclusive_outcome (env : task_env) (wf : CapturedWorkflow.t) : Prop :=
  CapturedWorkflow.completed_at wf <> None
  /\ (CapturedWorkflow.success wf = true ->
      (exists result text,
         run_answer env = Ok result /\ final_text result = Ok text
         /\ CapturedWorkflow.final_result wf = Some text
         /\ (truthy result = false -> text = "Completed"))
      /\ CapturedWorkflow.error_summary wf = None)
  /\ (CapturedWorkflow.success wf = false ->
      (exists e, caught env = Some e
                 /\ CapturedWorkflow.error_summary wf = Some (str_exn e))
      /\ CapturedWorkflow.final_result wf = None).


(** How many times an attribute was assigned. *)
Definition completed_at_writes (l : list assignment) : nat :=
  length (List.filter (fun a => match a with Assign_completed_at _ => true | _ => false end) l).

Definition success_writes (l : list assignment) : nat :=
  length (List.filter (fun a => match a with Assign_success _ => true | _ => false end) l).

Section Stages.
Context `{Runtime}.

(** The episode of a task when the agent starts, when the agent has made
    its hook calls, and when [execute_task] reaches the dump. *)
Definition announced (user_input : string) (env : task_env) (w : world) : episode :=
  snd (announce user_input (output_dir_of user_input env)
         (new_episode user_input env w)).

Definition hooked (user_input : string) (env : task_env) (w : world) : episode :=
  after_hooks (output_dir_of user_input env) (hook_calls env)
    (announced user_input env w).

Definition finalized (user_input : string) (env : task_env) (w : world) : episode :=
  snd (attempt (output_dir_of user_input env) env (announced user_input env w)).

(** The exception that keeps a step boundary from observing the page:
    the state, the title, the screenshot or its decoding raises. *)
Definition observation_error (env : page_env) (s : episode) : option exn :=
  match browser_state env with
  | Raise e => Some e
  | Ok state =>
      match current_page_title env with
      | Raise e => Some e
      | Ok title =>
          let current_url := match state with Some u => u | None => "unknown" end in
          if is_login_page current_url (or_default title "untitled") && negb (latch s)
          then None
          else
            match screenshot_answer env with
            | Raise e => Some e
            | Ok (ShotBytes _) => None
            | Ok (ShotStr t) | Ok (ShotOther t) =>
                match b64decode t with
                | Raise e => Some e
                | Ok _ => None
                end
            end
      end
  end.

(** The exception [agent.pause()] or [agent.resume()] raises during a
    handoff, if the step boundary starts one. *)
Definition handoff_error (env : page_env) (s : episode) : option exn :=
  match browser_state env, current_page_title env with
  | Ok state, Ok title =>
      let current_url := match state with Some u => u | None => "unknown" end in
      if is_login_page current_url (or_default title "untitled") && negb (latch s)
      then
        match pause_answer env, input_answer env, resume_answer env with
        | Raise e, _, _ => Some e
        | Ok _, Ok _, Raise e => Some e
        | _, _, _ => None
        end
      else None
  | _, _ => None
  end.

End Stages.

(** ** Observations on texts *)

(** Every character of [s] passes the test [p]. *)
Fixpoint all_chars (p : ascii -> bool) (s : string) : bool :=
  match s with
  | EmptyString => true
  | String c s' => p c && all_chars p s'
  end.

(** The character is an ASCII one, where [str.isalnum] and [str.lower]
    are the ASCII tests of [PyStr]. *)
Definition is_ascii (c : ascii) : bool := (nat_of_ascii c <? 128)%nat.

(** The characters a slug is made of: letters, digits and ["_"]. *)
Definition slug_char (c : ascii) : bool :=
  PyStr.isalnum c || Ascii.eqb c "_".

(** [s[n:]]. *)
Fixpoint skip (n : nat) (s : string) : string :=
  match n, s with
  | O, _ => s
  | S _, EmptyString => EmptyString
  | S n', String _ s' => skip n' s'
  end.

Definition is_digit (c : ascii) : bool :=
  let n := nat_of_ascii c in (48 <=? n)%nat && (n <=? 57)%nat.

(** The number written by the leading decimal digits of [s], read after
    the digits that gave [acc]. *)
Fixpoint read_digits (acc : nat) (s : string) : nat :=
  match s with
  | EmptyString => acc
  | String c s' =>
      if is_digit c then read_digits (10 * acc + (nat_of_ascii c - 48)) s'
      else acc
  end.

(** The ordinal a screenshot file name carries after its ["step_"]. *)
Definition step_of_filename (name : string) : nat :=
  read_digits 0 (skip 5 name).

(** The application [detect_app] falls back to. *)
Definition unknown_app : string * app_config :=
  ("unknown", {| cfg_url := EmptyString; cfg_name := "Unknown" |}).

(** ** What a step boundary observes and does *)

(** The address and the title [on_step_end] works with, when the browser
    reports them. *)
Definition observed_url (env : page_env) : option string :=
  match browser_state env with
  | Ok state => Some (match state with Some u => u | None => "unknown" end)
  | Raise _ => None
  end.

Definition observed_title (env : page_env) : option string :=
  match current_page_title env with
  | Ok title => Some (or_default title "untitled")
  | Raise _ => None
  end.

(** The page observed at the step boundary is classified as a login
    page. *)
Definition sees_login (env : page_env) : bool :=
  match observed_url env, observed_title env with
  | Some u, Some t => is_login_page u t
  | _, _ => false
  end.

(** The effect of one [on_step_end] in full: on the trace, the latch,
    the files of the episode and the calls on the agent.  The boundary
    is skipped (its body raised), hands the page over to the user, or
    captures the page. *)
Inductive boundary_effect (output_dir : string) (env : page_env)
    (s s' : episode) : Prop :=
| boundary_skipped :
    ep_steps s' = ep_steps s ->
    latch s' = latch s ->
    (fs (ep_world s') = fs (ep_world s)
     \/ exists b,
          fs (ep_world s')
          = <[path_join output_dir (screenshot_filename (S (sd_count s)))
                := BinaryFile b]> (fs (ep_world s))) ->
    (sees_login env && negb (latch s) = false -> ep_driver s' = ep_driver s) ->
    boundary_effect output_dir env s s'
| boundary_handed_over (u t : string) :
    observed_url env = Some u ->
    observed_title env = Some t ->
    is_login_page u t = true ->
    latch s = false ->
    latch s' = true ->
    ep_steps s' = ep_steps s ++
      [manual_login_step (S (sd_count s)) (now_timestamp env) u t] ->
    fs (ep_world s') = fs (ep_world s) ->
    ep_driver s' = ep_driver s ++ [Pause; ReadInput; Resume] ->
    boundary_effect output_dir env s s'
| boundary_captured (u t : string) (b : bytes) (actions : list action) :
    observed_url env = Some u ->
    observed_title env = Some t ->
    is_login_page u t && negb (latch s) = false ->
    model_actions env = Ok actions ->
    latch s' = latch s ->
    ep_driver s' = ep_driver s ->
    ep_steps s' = ep_steps s ++
      [captured_step (S (sd_count s)) (now_timestamp env)
         (fst (describe_actions actions)) (snd (describe_actions actions)) u t
         (screenshot_filename (S (sd_count s)))
         (option_map (fun t0 => (now_duration env - t0)%Z)
            (StepData.step_start_time (step_data s)))] ->
    fs (ep_world s')
    = <[path_join output_dir (screenshot_filename (S (sd_count s)))
          := BinaryFile b]> (fs (ep_world s)) ->
    boundary_effect output_dir env s s'.

(** ** Further invariants of an episode *)

(** The directory of the episode exists, and every record of a captured
    step names a screenshot file that lies in it. *)
Definition files_present (output_dir : string) (files : gmap string file)
    (trace : list CapturedStep.t) : Prop :=
  files !! output_dir = Some Directory
  /\ forall r, r ∈ trace ->
       CapturedStep.required_manual_login r = false ->
       exists n b,
         CapturedStep.screenshot r = screenshot_filename n
         /\ files !! path_join output_dir (CapturedStep.screenshot r)
            = Some (BinaryFile b).

(** The page of a record is classified as a login page. *)
Definition on_login_page (r : CapturedStep.t) : bool :=
  is_login_page (CapturedStep.url r) (CapturedStep.page_title r).

(** The manual-login record sits on a login page, and no record before
    it does. *)
Definition login_first (trace : list CapturedStep.t) : Prop :=
  (forall r, r ∈ trace ->
     CapturedStep.required_manual_login r = true -> on_login_page r = true)
  /\ (forall i j ri rj, i < j ->
        trace !! i = Some ri -> trace !! j = Some rj ->
        CapturedStep.required_manual_login rj = true ->
        on_login_page ri = false).

(** The screenshot references of the captured steps of a trace follow
    their ordinals and are pairwise distinct. *)
Definition distinct_screenshots (trace : list CapturedStep.t) : Prop :=
  (forall r, r ∈ trace ->
     CapturedStep.required_manual_login r = false ->
     CapturedStep.screenshot r = screenshot_filename (CapturedStep.step_number r))
  /\ (forall i j ri rj, i <> j ->
        trace !! i = Some ri -> trace !! j = Some rj ->
        CapturedStep.required_manual_login ri = false ->
        CapturedStep.required_manual_login rj = false ->
        CapturedStep.screenshot ri <> CapturedStep.screenshot rj).


(** ** The handoff, call by call *)

(** The first exception among the pause, the read of the console and the
    resume of a handoff, in the order the hook makes the calls. *)
Definition handoff_failure (env : page_env) : option exn :=
  match pause_answer env with
  | Raise e => Some e
  | Ok _ =>
      match input_answer env with
      | Raise e => Some e
      | Ok _ =>
          match resume_answer env with
          | Raise e => Some e
          | Ok _ => None
          end
      end
  end.

(** The calls a handoff makes: it stops at the first one that raises. *)
Definition handoff_calls (env : page_env) : list driver_call :=
  match pause_answer env with
  | Raise _ => [Pause]
  | Ok _ =>
      match input_answer env with
      | Raise _ => [Pause; ReadInput]
      | Ok _ => [Pause; ReadInput; Resume]
      end
  end.

(** The step boundary hands the page over to the user: it observes a
    login page while the latch is open, and the pause, the read and the
    resume return. *)
Definition hands_over (env : page_env) (s : episode) : bool :=
  sees_login env && negb (latch s)
  && match handoff_failure env with
     | None => true
     | Some _ => false
     end.

(** The record of a handoff: labelled as a manual login, without
    screenshot, successful and flagged. *)
Definition handoff_record (r : CapturedStep.t) : Prop :=
  manual_record r
  /\ CapturedStep.action_type r = "manual_login"
  /\ CapturedStep.screenshot r = EmptyString
  /\ CapturedStep.success r = true
  /\ CapturedStep.required_manual_login r = true.

(** The identity of the workflow of a task: what [execute_task] derives
    from the request and the clock before the agent starts. *)
Definition identifies `{Runtime} (user_input : string) (env : task_env)
    (wf : CapturedWorkflow.t) : Prop :=
  CapturedWorkflow.original_query wf = user_input
  /\ CapturedWorkflow.task_id wf
     = strftime (now_stamp env) +:+ "_" +:+ fst (detect_app user_input)
  /\ CapturedWorkflow.transformed_task wf
     = transform_to_action_task user_input (snd (detect_app user_input))
  /\ CapturedWorkflow.app_name wf = cfg_name (snd (detect_app user_input))
  /\ CapturedWorkflow.app_url wf = cfg_url (snd (detect_app user_input))
  /\ CapturedWorkflow.started_at wf = now_started env.

(** A page on which the read of the console raises during the handoff. *)
Definition page_read_raises (address title : string) (now : datetime) : page_env :=
  {| browser_state := Ok (Some address);
     current_page_title := Ok (Some title);
     pause_answer := Ok tt;
     input_answer := Raise (Exception "EOF when reading a line");
     resume_answer := Ok tt;
     screenshot_answer := Ok (ShotBytes []);
     model_actions := Ok [];
     now_duration := now;
     now_timestamp := now |}.

(** ** An episode and the world around it *)

(** The path is the parent [ui_dataset], the directory [dir] or lies in
    that directory. *)
Definition inside (dir path : string) : Prop :=
  path = "ui_dataset" \/ path = dir \/ exists name, path = path_join dir name.

(** * Properties *)

Arguments is_login_page : simpl never.
Arguments PyStr.format_03d : simpl never.
Arguments PyStr.decimal : simpl never.
Arguments PyStr.repeat_char : simpl never.
Arguments describe_actions : simpl never.
Arguments screenshot_filename : simpl never.
Arguments String.append : simpl never.

(** ** Substrings and the classifier *)

Lemma append_nil_l (s : string) : EmptyString +:+ s = s.
Proof. reflexivity. Qed.

Lemma append_cons (c : ascii) (s t : string) :
  String c s +:+ t = String c (s +:+ t).
Proof. reflexivity. Qed.

Lemma startswith_spec (p s : string) :
  PyStr.startswith p s = true <-> exists b, s = p +:+ b.
Proof.
  revert s; induction p as [|a p IH]; intros s; simpl.
  - split; [intros _; exists s; reflexivity | reflexivity].
  - destruct s as [|c s].
    + split; [discriminate | intros [b Hb]; rewrite append_cons in Hb; discriminate].
    + destruct (Ascii.eqb_spec a c) as [->|Hne].
      * rewrite IH. split; intros [b Hb]; exists b.
        -- rewrite append_cons; congruence.
        -- rewrite append_cons in Hb; congruence.
      * split; [discriminate|].
        intros [b Hb]. rewrite append_cons in Hb. congruence.
Qed.

Lemma str_in_spec (p s : string) :
  PyStr.str_in p s = true <-> exists a b, s = a +:+ p +:+ b.
Proof.
  induction s as [|c s IH]; simpl.
  - destruct (PyStr.startswith p EmptyString) eqn:E.
    + apply startswith_spec in E as [b Hb].
      split; [intros _; exists EmptyString, b; exact Hb | reflexivity].
    + split; [discriminate|].
      intros (a & b & Hab). destruct a as [|a0 a]; [|rewrite append_cons in Hab; discriminate].
      rewrite append_nil_l in Hab.
      assert (PyStr.startswith p EmptyString = true) by (apply startswith_spec; eauto).
      congruence.
  - destruct (PyStr.startswith p (String c s)) eqn:E.
    + apply startswith_spec in E as [b Hb].
      split; [intros _; exists EmptyString, b; exact Hb | reflexivity].
    + rewrite IH. split.
      * intros (a & b & ->). exists (String c a), b. reflexivity.
      * intros (a & b & Hab). destruct a as [|a0 a].
        -- rewrite append_nil_l in Hab.
           assert (PyStr.startswith p (String c s) = true) by (apply startswith_spec; eauto).
           congruence.
        -- rewrite append_cons in Hab. injection Hab as _ ->. eauto.
Qed.

Lemma patterns_lower_case :
  Forall (fun p => PyStr.lower p = p) (LOGIN_URL_PATTERNS ++ LOGIN_PAGE_INDICATORS).
Proof. repeat constructor. Qed.

Lemma existsb_str_in (s : string) (pats : list string) :
  Forall (fun p => PyStr.lower p = p) pats ->
  existsb (fun p => PyStr.str_in p (PyStr.lower s)) pats = true
  <-> exists p, p ∈ pats /\ contains_ci s p.
Proof.
  intros Hlow. rewrite existsb_exists. unfold contains_ci.
  rewrite Forall_forall in Hlow.
  split; intros (p & Hin & Hp); exists p.
  - apply list_elem_of_In in Hin. split; [assumption|].
    rewrite (Hlow p Hin). apply str_in_spec, Hp.
  - split; [apply list_elem_of_In, Hin|].
    apply str_in_spec. rewrite (Hlow p Hin) in Hp. exact Hp.
Qed.

(** C4.  [is_login_page] answers true exactly when the address contains,
    case ignored, one of the URL patterns, or the title contains, case
    ignored, one of the page indicators; either alone suffices.  On the
    four quoted pages it answers true, false, true and false. *)
Theorem is_login_page_classifies :
  (forall url title,
     is_login_page url title = true <->
     (exists p, p ∈ LOGIN_URL_PATTERNS /\ contains_ci url p)
     \/ (exists i, i ∈ LOGIN_PAGE_INDICATORS /\ contains_ci title i))
  /\ is_login_page "https://app.example.com/login" EmptyString = true
  /\ is_login_page "https://app.example.com/board" "Team Board" = false
  /\ is_login_page "https://x.com/x" "Please Sign In" = true
  /\ is_login_page EmptyString EmptyString = false.
Proof.
  split; [|repeat split; reflexivity].
  intros url title. unfold is_login_page.
  pose proof patterns_lower_case as Hlow.
  apply Forall_app in Hlow as [Hurl Htitle].
  rewrite <- (existsb_str_in url _ Hurl), <- (existsb_str_in title _ Htitle).
  destruct (existsb _ LOGIN_URL_PATTERNS); [tauto|].
  destruct (existsb _ LOGIN_PAGE_INDICATORS); [tauto|].
  split; [discriminate | intros [?|?]; discriminate].
Qed.

(** ** One step boundary *)

Ltac unfold_hook :=
  unfold on_step_end, on_step_end_body, manual_login, capture_step,
    on_step_start, bind, try_except, gets, set_count, set_step_start_time,
    print, call, await, modify, ret, set_waiting_for_login,
    set_login_handled, append_step, write_file.

Ltac unfold_obs :=
  unfold hook_frame, sd_count, latch, waiting, ep_steps, ep_driver, ep_stdout in *.

Lemma andb_negb_true (a b : bool) : a && negb b = true -> b = false.
Proof. destruct a, b; simpl; congruence. Qed.

Lemma on_step_end_spec `{Runtime} (output_dir : string) (env : page_env) (s : episode) :
  exists s',
    on_step_end output_dir env s = (Ok tt, s')
    /\ sd_count s' = S (sd_count s)
    /\ hook_frame s s'
    /\ hook_step s s'.
Proof.
  destruct s as [w [n st lh wl] wf asg]; destruct wf.
  destruct env as [bs ti pa ia ra sa ma nd nt].
  unfold_hook; cbn. rewrite Nat.add_1_r.
  destruct bs as [state|e]; cbn;
    [|eexists; repeat split; [apply hook_step_failed; unfold_obs; cbn; auto]].
  destruct ti as [title|e]; cbn;
    [|eexists; repeat split; [apply hook_step_failed; unfold_obs; cbn; auto]].
  destruct (is_login_page _ _ && negb lh) eqn:E; cbn.
  - apply andb_negb_true in E as ->.
    destruct pa as [[]|e]; cbn;
      [|eexists; repeat split; [apply hook_step_failed; unfold_obs; cbn; auto; discriminate]].
    destruct ia as [[]|e]; cbn;
      [|eexists; repeat split; [apply hook_step_failed; unfold_obs; cbn; auto; discriminate]].
    destruct ra as [[]|e]; cbn;
      [|eexists; repeat split; [apply hook_step_failed; unfold_obs; cbn; auto; discriminate]].
    eexists; repeat split.
    eapply hook_step_manual; unfold_obs; cbn; reflexivity.
  - destruct sa as [shot|e]; cbn;
      [|eexists; repeat split; [apply hook_step_failed; unfold_obs; cbn; auto]].
    destruct shot as [b|t|t]; cbn; try destruct (b64decode t) as [b|e]; cbn.
    all: try (eexists; repeat split; [apply hook_step_failed; unfold_obs; cbn; auto]; fail).
    all: destruct ma as [actions|e]; cbn.
    all: try (eexists; repeat split; [apply hook_step_failed; unfold_obs; cbn; auto]; fail).
    all: destruct (describe_actions actions) as [a d]; cbn.
    all: eexists; repeat split.
    all: eapply hook_step_captured; unfold_obs; cbn; reflexivity.
Qed.

Lemma on_step_start_spec (now : datetime) (s : episode) :
  exists s',
    on_step_start now s = (Ok tt, s')
    /\ sd_count s' = sd_count s
    /\ hook_frame s s'
    /\ latch s' = latch s /\ waiting s' = waiting s
    /\ ep_steps s' = ep_steps s /\ ep_world s' = ep_world s.
Proof.
  destruct s as [w [n st lh wl] wf asg]; destruct wf.
  unfold_hook; cbn. eexists; repeat split.
Qed.

(** ** Runs of hook calls *)

Section Runs.
Context `{Runtime}.
Variable output_dir : string.

Lemma run_hooks_returns (calls : list hook_call) (s : episode) :
  exists s', run_hooks output_dir calls s = (Ok tt, s').
Proof.
  revert s; induction calls as [|c rest IH]; intros s; [eexists; reflexivity|].
  cbn [run_hooks]. unfold bind.
  destruct c as [now|env]; cbn [run_hook].
  - destruct (on_step_start_spec now s) as (s' & -> & _). apply IH.
  - destruct (on_step_end_spec output_dir env s) as (s' & -> & _). apply IH.
Qed.

Lemma run_hooks_total (calls : list hook_call) (s : episode) :
  run_hooks output_dir calls s = (Ok tt, after_hooks output_dir calls s).
Proof.
  unfold after_hooks. destruct (run_hooks_returns calls s) as [s' ->]. reflexivity.
Qed.

Lemma after_hooks_nil (s : episode) : after_hooks output_dir [] s = s.
Proof. reflexivity. Qed.

Lemma after_hooks_cons (c : hook_call) (rest : list hook_call) (s : episode) :
  after_hooks output_dir (c :: rest) s
  = after_hooks output_dir rest (snd (run_hook output_dir c s)).
Proof.
  unfold after_hooks. cbn [run_hooks]. unfold bind.
  destruct c as [now|env]; cbn [run_hook].
  - destruct (on_step_start_spec now s) as (s' & -> & _). reflexivity.
  - destruct (on_step_end_spec output_dir env s) as (s' & -> & _). reflexivity.
Qed.

Lemma after_hooks_app (pre post : list hook_call) (s : episode) :
  after_hooks output_dir (pre ++ post) s
  = after_hooks output_dir post (after_hooks output_dir pre s).
Proof.
  revert s; induction pre as [|c pre IH]; intros s; [reflexivity|].
  rewrite <- app_comm_cons, !after_hooks_cons. apply IH.
Qed.

(** An invariant of both hooks is an invariant of every run. *)
Lemma after_hooks_invariant (P : episode -> Prop) :
  (forall s now, P s -> P (snd (on_step_start now s))) ->
  (forall s env, P s -> P (snd (on_step_end output_dir env s))) ->
  forall calls s, P s -> P (after_hooks output_dir calls s).
Proof.
  intros Hstart Hend calls; induction calls as [|c rest IH]; intros s Hs; [exact Hs|].
  rewrite after_hooks_cons. apply IH. destruct c; cbn [run_hook]; auto.
Qed.

Lemma hook_frame_refl (s : episode) : hook_frame s s.
Proof.
  destruct s as [w sd wf asg]; destruct wf. split; reflexivity.
Qed.

Lemma hook_frame_trans (s1 s2 s3 : episode) :
  hook_frame s1 s2 -> hook_frame s2 s3 -> hook_frame s1 s3.
Proof.
  unfold hook_frame, ep_steps. intros [Hw Ha] [Hw' Ha']. split; [|congruence].
  rewrite Hw', Hw. reflexivity.
Qed.

Lemma after_hooks_frame (calls : list hook_call) (s : episode) :
  hook_frame s (after_hooks output_dir calls s).
Proof.
  revert s; induction calls as [|c rest IH]; intros s; [apply hook_frame_refl|].
  rewrite after_hooks_cons. eapply hook_frame_trans; [|apply IH].
  destruct c as [now|env]; cbn [run_hook].
  - destruct (on_step_start_spec now s) as (s' & -> & _ & Hf & _). exact Hf.
  - destruct (on_step_end_spec output_dir env s) as (s' & -> & _ & Hf & _). exact Hf.
Qed.

Lemma after_hooks_count (calls : list hook_call) (s : episode) :
  sd_count (after_hooks output_dir calls s) = sd_count s + step_ends calls.
Proof.
  revert s; induction calls as [|c rest IH]; intros s; [cbn; lia|].
  rewrite after_hooks_cons, IH.
  destruct c as [now|env]; cbn [run_hook step_ends].
  - destruct (on_step_start_spec now s) as (s' & -> & Hc & _). cbn. lia.
  - destruct (on_step_end_spec output_dir env s) as (s' & -> & Hc & _). cbn. lia.
Qed.

Lemma numbered_step (s s' : episode) :
  sd_count s' = S (sd_count s) -> hook_step s s' -> numbered s -> numbered s'.
Proof.
  intros Hc Hstep (Hlen & Hb & Hs).
  assert (Happ : forall r, CapturedStep.step_number r = S (sd_count s) ->
                 ep_steps s' = ep_steps s ++ [r] -> numbered s').
  { intros r Hr Heq. unfold numbered. rewrite Heq, Hc, length_app. cbn [length].
    split; [lia|]. split.
    - intros i x Hx. apply lookup_app_Some in Hx as [Hx|[Hi Hx]].
      + destruct (Hb i x Hx). pose proof (lookup_lt_Some _ _ _ Hx). lia.
      + apply list_lookup_singleton_Some in Hx as [Hi0 <-]. lia.
    - intros i j ri rj Hij Hi Hj.
      pose proof (lookup_lt_Some _ _ _ Hi) as Hli.
      pose proof (lookup_lt_Some _ _ _ Hj) as Hlj.
      rewrite length_app in Hli, Hlj; cbn [length] in Hli, Hlj.
      apply lookup_app_Some in Hj as [Hj|[Hjl Hj]].
      + rewrite lookup_app_l in Hi by (apply lookup_lt_Some in Hj; lia). eauto.
      + apply list_lookup_singleton_Some in Hj as [Hj0 <-].
        rewrite lookup_app_l in Hi by lia.
        destruct (Hb i ri Hi). pose proof (lookup_lt_Some _ _ _ Hi). lia. }
  destruct Hstep as [Heq _ _ | now u t _ _ _ Heq | now a d u t ms _ _ _ Heq].
  - unfold numbered. rewrite Heq, Hc. split; [lia|]. split; [|exact Hs].
    intros i r Hr. destruct (Hb i r Hr). lia.
  - eapply Happ; [|exact Heq]. reflexivity.
  - eapply Happ; [|exact Heq]. reflexivity.
Qed.

Lemma after_hooks_numbered (calls : list hook_call) (s : episode) :
  numbered s -> numbered (after_hooks output_dir calls s).
Proof.
  apply after_hooks_invariant.
  - intros s0 now (Hlen & Hb & Hs).
    destruct (on_step_start_spec now s0) as (s' & -> & Hc & _ & _ & _ & Hst & _).
    cbn. unfold numbered. rewrite Hst, Hc. auto.
  - intros s0 env Hn.
    destruct (on_step_end_spec output_dir env s0) as (s' & -> & Hc & _ & Hstep).
    cbn. eapply numbered_step; eauto.
Qed.

Lemma fresh_numbered (s : episode) : fresh s -> numbered s.
Proof.
  intros [Hsd Hst]. unfold numbered, sd_count. rewrite Hst, Hsd. cbn.
  split; [lia|]. split; intros; simplify_list_eq.
Qed.

End Runs.

(** ** The terminal assignments of a task *)

Section Terminal.
Context `{Runtime}.

Ltac unfold_task :=
  unfold attempt, agent_run, on_run_returned, on_run_raised, assign, raise,
    persist, announce;
  unfold_hook.

(** The [try] and its [except] always return; they leave the hook's
    dictionary, the steps and the file system as the agent's hook calls
    left them, and make the assignments of the branch taken. *)
Lemma attempt_spec (output_dir : string) (env : task_env) (s : episode) :
  let s1 := after_hooks output_dir (hook_calls env) s in
  exists s2,
    attempt output_dir env s = (Ok tt, s2)
    /\ step_data s2 = step_data s1
    /\ ep_steps s2 = ep_steps s1
    /\ fs (ep_world s2) = fs (ep_world s1)
    /\ match run_answer env with
       | Raise e =>
           workflow s2 = failed (now_failed env) e (workflow s1)
           /\ assignments s2 = assignments s1 ++
                [ Assign_completed_at (now_failed env); Assign_success false;
                  Assign_error_summary (str_exn e) ]
       | Ok result =>
           match final_text result with
           | Ok text =>
               workflow s2 = finished (now_completed env) text (workflow s1)
               /\ assignments s2 = assignments s1 ++
                    [ Assign_completed_at (now_completed env); Assign_success true;
                      Assign_final_result text;
                      Assign_total_duration_seconds
                        (now_completed env - CapturedWorkflow.started_at (workflow s1))%Z ]
           | Raise e =>
               workflow s2 =
                 failed (now_failed env) e
                   (CapturedWorkflow.set_success true
                      (CapturedWorkflow.set_completed_at
                         (Some (now_completed env)) (workflow s1)))
               /\ assignments s2 = assignments s1 ++
                    [ Assign_completed_at (now_completed env); Assign_success true;
                      Assign_completed_at (now_failed env); Assign_success false;
                      Assign_error_summary (str_exn e) ]
           end
       end.
Proof.
  intros s1. unfold_task. rewrite run_hooks_total. fold s1.
  destruct s1 as [w sd wf asg]; destruct wf.
  destruct (run_answer env) as [result|e]; cbn.
  - destruct (final_text result) as [text|e]; cbn;
      (eexists; repeat split; unfold_obs; cbn; rewrite <- ?app_assoc; reflexivity).
  - eexists; repeat split; unfold_obs; cbn; rewrite <- ?app_assoc; reflexivity.
Qed.

Lemma announced_fresh (user_input : string) (env : task_env) (w : world) :
  fresh (announced user_input env w)
  /\ workflow (announced user_input env w) = new_workflow user_input env
  /\ assignments (announced user_input env w) = [].
Proof.
  unfold announced, announce, fresh, ep_steps; unfold_hook; cbn.
  unfold new_workflow. destruct (detect_app user_input). repeat split.
Qed.

(** With the key present, [execute_task] returns the workflow of the
    finalized episode and has written its dump under the episode's
    directory. *)
Lemma execute_task_spec (api_key : option string) (user_input : string)
    (env : task_env) (w : world) :
  api_key_missing api_key = false ->
  exists w',
    execute_task api_key user_input env w
      = (Ok (workflow (finalized user_input env w)), w')
    /\ fs w' !! path_join (output_dir_of user_input env) "workflow.json"
       = Some (WorkflowJson (workflow (finalized user_input env w))).
Proof.
  intros Hkey. unfold execute_task. rewrite Hkey.
  unfold finalized, announced, run_episode.
  set (out := output_dir_of user_input env).
  set (s0 := new_episode user_input env w).
  unfold bind at 1.
  destruct (announce user_input out s0) as [[[]|e] sa] eqn:Ea;
    [|unfold announce in Ea; unfold_hook; cbn in Ea; discriminate].
  cbn [snd]. unfold bind at 1.
  destruct (attempt_spec out env sa) as (s2 & -> & _).
  cbn [snd]. unfold persist; unfold_hook; cbn.
  eexists; split; [reflexivity|]. cbn. apply lookup_insert_eq.
Qed.

End Terminal.

(** ** The ordinals of the trace *)

Section Ordinals.
Context `{Runtime}.

Lemma finalized_eq (user_input : string) (env : task_env) (w : world) :
  attempt (output_dir_of user_input env) env (announced user_input env w)
  = (Ok tt, finalized user_input env w).
Proof.
  unfold finalized.
  destruct (attempt_spec (output_dir_of user_input env) env
              (announced user_input env w)) as (s2 & -> & _).
  reflexivity.
Qed.

Lemma finalized_steps (user_input : string) (env : task_env) (w : world) :
  ep_steps (finalized user_input env w) = ep_steps (hooked user_input env w).
Proof.
  unfold finalized, hooked.
  destruct (attempt_spec (output_dir_of user_input env) env
              (announced user_input env w)) as (s2 & -> & _ & Hs & _).
  exact Hs.
Qed.

Lemma hooked_count (user_input : string) (env : task_env) (w : world) :
  sd_count (hooked user_input env w) = step_ends (hook_calls env).
Proof.
  unfold hooked. rewrite after_hooks_count.
  destruct (announced_fresh user_input env w) as [[Hsd _] _].
  unfold sd_count. rewrite Hsd. reflexivity.
Qed.

Lemma numbered_follows (s : episode) :
  numbered s -> follows_boundaries (sd_count s) (ep_steps s).
Proof.
  intros (Hlen & Hb & Hs). split; [exact Hs|]. split.
  - intros i r Hr. destruct (Hb i r Hr).
    pose proof (lookup_lt_Some _ _ _ Hr). lia.
  - intros Hfull i r Hr. destruct (Hb i r Hr).
    pose proof (lookup_lt_Some _ _ _ Hr). lia.
Qed.

Lemma on_step_end_counts (output_dir : string) (env : page_env) (s : episode) :
  counts_boundary s (snd (on_step_end output_dir env s)).
Proof.
  destruct (on_step_end_spec output_dir env s) as (s' & -> & Hc & _ & Hstep).
  cbn [snd]. split; [exact Hc|].
  destruct Hstep as [Heq _ _ | now u t _ _ _ Heq | now a d u t ms _ _ _ Heq].
  - left; exact Heq.
  - right; eexists; split; [exact Heq|]. rewrite Hc; reflexivity.
  - right; eexists; split; [exact Heq|]. rewrite Hc; reflexivity.
Qed.

(** C1, as the code has it.  Every step boundary advances the counter of
    the hook, and the record it appends, if any, carries the counter:
    the ordinal of the step boundary, not one plus the length of the
    trace.  In the trace of the returned workflow the ordinals therefore
    grow strictly, the record at index [i] carries an ordinal of at least
    [i + 1] and at most the number of step boundaries, and it carries
    exactly [i + 1] when no step boundary failed to append. *)
Theorem step_numbers_follow_step_boundaries
    (api_key : option string) (user_input : string) (env : task_env) (w : world) :
  api_key_missing api_key = false ->
  (forall output_dir penv s,
     counts_boundary s (snd (on_step_end output_dir penv s)))
  /\ exists wf w',
       execute_task api_key user_input env w = (Ok wf, w')
       /\ follows_boundaries (step_ends (hook_calls env)) (CapturedWorkflow.steps wf).
Proof.
  intros Hkey. split; [intros; apply on_step_end_counts|].
  destruct (execute_task_spec api_key user_input env w Hkey) as (w' & Hrun & _).
  eexists _, w'. split; [exact Hrun|].
  change (CapturedWorkflow.steps (workflow (finalized user_input env w)))
    with (ep_steps (finalized user_input env w)).
  rewrite finalized_steps, <- (hooked_count user_input env w).
  apply numbered_follows. unfold hooked.
  apply after_hooks_numbered, fresh_numbered, announced_fresh.
Qed.

End Ordinals.

Lemma step_numbers_follow_step_boundaries_witness :
  api_key_missing (Some "key") = false
  /\ exists wf w',
       @execute_task Scenario.runtime (Some "key") Scenario.query
         (Scenario.task Scenario.first_capture_fails (Ok (Scenario.done "done")))
         empty_world = (Ok wf, w')
       /\ follows_boundaries 2 (CapturedWorkflow.steps wf).
Proof.
  split; [reflexivity|].
  apply (@step_numbers_follow_step_boundaries Scenario.runtime (Some "key")
           Scenario.query
           (Scenario.task Scenario.first_capture_fails (Ok (Scenario.done "done")))
           empty_world).
  reflexivity.
Defined.

(** C1 fails as stated: the first step boundary cannot observe the
    browser and appends nothing, the second appends its record under
    ordinal 2, so the record at index 0 does not carry ordinal 1. *)
Lemma step_number_gap :
  exists wf,
    fst (@execute_task Scenario.runtime (Some "key") Scenario.query
           (Scenario.task Scenario.first_capture_fails (Ok (Scenario.done "done")))
           empty_world) = Ok wf
    /\ map CapturedStep.step_number (CapturedWorkflow.steps wf) = [2]
    /\ ~ (forall i r, CapturedWorkflow.steps wf !! i = Some r ->
                      CapturedStep.step_number r = i + 1).
Proof.
  eexists. split; [vm_compute; reflexivity|].
  split; [reflexivity|].
  intros Hall. specialize (Hall 0 _ eq_refl). discriminate Hall.
Qed.

(** ** The login latch *)

Section Latch.
Context `{Runtime}.

Lemma manual_steps_app (l k : list CapturedStep.t) :
  manual_steps (l ++ k) = manual_steps l ++ manual_steps k.
Proof. apply List.filter_app. Qed.

Lemma one_handoff_step (s s' : episode) :
  hook_step s s' -> one_handoff s -> one_handoff s'.
Proof.
  intros Hstep (Hlen & Hopen & Hset).
  destruct Hstep as [Heq Hl Hw | now u t Hl Hl' Hw Heq | now a d u t ms Hl Hw _ Heq];
    unfold one_handoff.
  - rewrite Heq, Hl. repeat split; auto.
    intros Ht. destruct (Hw Ht) as [-> _]. auto.
  - rewrite Heq, manual_steps_app, (Hopen Hl), Hl'. cbn.
    repeat split; auto. discriminate.
  - rewrite Heq, manual_steps_app, Hl, Hw. cbn. rewrite app_nil_r. auto.
Qed.

Lemma after_hooks_one_handoff (output_dir : string) (calls : list hook_call)
    (s : episode) :
  one_handoff s -> one_handoff (after_hooks output_dir calls s).
Proof.
  apply after_hooks_invariant.
  - intros s0 now (Hlen & Hopen & Hset).
    destruct (on_step_start_spec now s0) as (s' & -> & _ & _ & Hl & Hw & Hst & _).
    cbn. unfold one_handoff. rewrite Hst, Hl, Hw. auto.
  - intros s0 env Hinv.
    destruct (on_step_end_spec output_dir env s0) as (s' & -> & _ & _ & Hstep).
    cbn. eapply one_handoff_step; eauto.
Qed.

Lemma fresh_one_handoff (s : episode) : fresh s -> one_handoff s.
Proof.
  intros [Hsd Hst]. unfold one_handoff, latch, waiting. rewrite Hst, Hsd. cbn.
  repeat split; auto.
Qed.

Lemma latched_as_refl (s : episode) :
  latch s = true -> waiting s = false -> latched_as s s.
Proof. intros; repeat split; assumption. Qed.

Lemma latched_as_step (mid s s' : episode) :
  hook_step s s' -> latched_as mid s -> latched_as mid s'.
Proof.
  intros Hstep (Hl & Hw & Hm & Hd).
  destruct Hstep as [Heq Hl' Hw' | now u t Hopen _ _ _ | now a d u t ms Hl' Hw' Hd' Heq];
    unfold latched_as.
  - destruct (Hw' Hl) as [Hw'' Hd']. rewrite Heq, Hl', Hw'', Hd'. auto.
  - congruence.
  - rewrite Heq, manual_steps_app, Hl', Hw', Hd'. cbn. rewrite app_nil_r. auto.
Qed.

Lemma after_hooks_latched (output_dir : string) (calls : list hook_call)
    (s : episode) :
  latch s = true -> waiting s = false ->
  latched_as s (after_hooks output_dir calls s).
Proof.
  intros Hl Hw. apply (after_hooks_invariant output_dir (latched_as s)).
  - intros s0 now (Hl0 & Hw0 & Hm & Hd).
    destruct (on_step_start_spec now s0) as (s' & -> & _ & _ & Hl' & Hw' & Hst & Hwd).
    cbn. unfold latched_as, ep_driver. rewrite Hst, Hl', Hw', Hwd. auto.
  - intros s0 env Hinv.
    destruct (on_step_end_spec output_dir env s0) as (s' & -> & _ & _ & Hstep).
    cbn. eapply latched_as_step; eauto.
  - apply latched_as_refl; assumption.
Qed.

(** C2.  The trace of the returned workflow holds at most one record
    flagged [required_manual_login].  Once a prefix of the agent's hook
    calls has set [login_handled], it stays set to the end of the
    episode, and the rest of the calls appends no flagged record, leaves
    no wait pending and makes no call on the agent: neither a pause nor a
    resume. *)
Theorem one_manual_login_per_episode
    (api_key : option string) (user_input : string) (env : task_env) (w : world) :
  api_key_missing api_key = false ->
  (exists wf w',
     execute_task api_key user_input env w = (Ok wf, w')
     /\ length (manual_steps (CapturedWorkflow.steps wf)) <= 1)
  /\ (forall pre post,
        hook_calls env = pre ++ post ->
        let mid := after_hooks (output_dir_of user_input env) pre
                     (announced user_input env w) in
        latch mid = true ->
        latched_as mid (hooked user_input env w)).
Proof.
  intros Hkey. split.
  - destruct (execute_task_spec api_key user_input env w Hkey) as (w' & Hrun & _).
    eexists _, w'. split; [exact Hrun|].
    change (CapturedWorkflow.steps (workflow (finalized user_input env w)))
      with (ep_steps (finalized user_input env w)).
    rewrite finalized_steps. unfold hooked.
    apply after_hooks_one_handoff, fresh_one_handoff, announced_fresh.
  - intros pre post Hcalls mid Hl. unfold hooked.
    rewrite Hcalls, after_hooks_app. fold mid.
    apply after_hooks_latched; [exact Hl|].
    assert (Hone : one_handoff mid)
      by apply after_hooks_one_handoff, fresh_one_handoff, announced_fresh.
    destruct Hone as (_ & _ & Hset). auto.
Qed.

End Latch.

Lemma one_manual_login_per_episode_witness :
  let env := Scenario.task Scenario.three_steps (Ok (Scenario.done "done")) in
  let mid := @after_hooks Scenario.runtime
               (@output_dir_of Scenario.runtime Scenario.query env)
               (take 4 Scenario.three_steps)
               (@announced Scenario.runtime Scenario.query env empty_world) in
  api_key_missing (Some "key") = false
  /\ hook_calls env = take 4 Scenario.three_steps ++ drop 4 Scenario.three_steps
  /\ latch mid = true
  /\ (exists wf w',
        @execute_task Scenario.runtime (Some "key") Scenario.query env empty_world
          = (Ok wf, w')
        /\ length (manual_steps (CapturedWorkflow.steps wf)) <= 1)
  /\ latched_as mid (@hooked Scenario.runtime Scenario.query env empty_world).
Proof.
  intros env mid.
  destruct (@one_manual_login_per_episode Scenario.runtime (Some "key")
              Scenario.query env empty_world eq_refl) as [Hone Hlatched].
  split; [reflexivity|]. split; [reflexivity|]. split; [reflexivity|].
  split; [exact Hone|].
  exact (Hlatched (take 4 Scenario.three_steps) (drop 4 Scenario.three_steps)
           eq_refl eq_refl).
Defined.

(** ** The records of the trace *)

Section Records.
Context `{Runtime}.

Lemma manual_login_step_from_hook (n : nat) (now : datetime) (u t : string) :
  from_hook (manual_login_step n now u t).
Proof. left. split; [exists n, now, u, t; reflexivity|]. repeat split. Qed.

Lemma captured_step_from_hook (n : nat) (now : datetime) (a d u t : string)
    (ms : option timedelta) :
  from_hook (captured_step n now a d u t (screenshot_filename n) ms).
Proof. right. split; [exists n, now, a, d, u, t, ms; reflexivity|]. reflexivity. Qed.

Lemma from_hook_step (s s' : episode) :
  hook_step s s' -> Forall from_hook (ep_steps s) -> Forall from_hook (ep_steps s').
Proof.
  intros Hstep Hall.
  destruct Hstep as [Heq _ _ | now u t _ _ _ Heq | now a d u t ms _ _ _ Heq];
    rewrite Heq; [exact Hall| |]; apply Forall_app; (split; [exact Hall|]);
    apply Forall_singleton.
  - apply manual_login_step_from_hook.
  - apply captured_step_from_hook.
Qed.

Lemma after_hooks_from_hook (output_dir : string) (calls : list hook_call)
    (s : episode) :
  Forall from_hook (ep_steps s) ->
  Forall from_hook (ep_steps (after_hooks output_dir calls s)).
Proof.
  apply (after_hooks_invariant output_dir (fun s => Forall from_hook (ep_steps s))).
  - intros s0 now Hall.
    destruct (on_step_start_spec now s0) as (s' & -> & _ & _ & _ & _ & Hst & _).
    cbn. rewrite Hst. exact Hall.
  - intros s0 env Hall.
    destruct (on_step_end_spec output_dir env s0) as (s' & -> & _ & _ & Hstep).
    cbn. eapply from_hook_step; eauto.
Qed.

End Records.

(** ** Exceptions at a step boundary *)

Section Swallowed.
Context `{Runtime}.

Ltac swallow :=
  unfold swallowed; unfold_obs; cbn; rewrite ?last_snoc; repeat split.

Lemma observation_error_swallowed (output_dir : string) (env : page_env)
    (s : episode) (e : exn) :
  observation_error env s = Some e ->
  fst (on_step_end output_dir env s) = Ok tt
  /\ swallowed e s (snd (on_step_end output_dir env s)).
Proof.
  destruct s as [w [n st lh wl] wf asg]; destruct wf.
  destruct env as [bs ti pa ia ra sa ma nd nt].
  unfold observation_error, latch; unfold_hook; cbn. rewrite Nat.add_1_r.
  destruct bs as [state|e0]; cbn; [|intros [= ->]; split; [reflexivity|swallow]].
  destruct ti as [title|e0]; cbn; [|intros [= ->]; split; [reflexivity|swallow]].
  destruct (is_login_page _ _ && negb lh); cbn; [discriminate|].
  destruct sa as [[b|t|t]|e0]; cbn;
    [discriminate| | |intros [= ->]; split; [reflexivity|swallow]].
  all: destruct (b64decode t) as [b|e0]; cbn;
    [discriminate|intros [= ->]; split; [reflexivity|swallow]].
Qed.

Lemma handoff_error_swallowed (output_dir : string) (env : page_env)
    (s : episode) (e : exn) :
  handoff_error env s = Some e ->
  fst (on_step_end output_dir env s) = Ok tt
  /\ swallowed e s (snd (on_step_end output_dir env s))
  /\ latch (snd (on_step_end output_dir env s)) = false.
Proof.
  destruct s as [w [n st lh wl] wf asg]; destruct wf.
  destruct env as [bs ti pa ia ra sa ma nd nt].
  unfold handoff_error, latch; unfold_hook; cbn. rewrite Nat.add_1_r.
  destruct bs as [state|e0]; cbn; [|discriminate].
  destruct ti as [title|e0]; cbn; [|discriminate].
  destruct (is_login_page _ _ && negb lh) eqn:E; cbn; [|discriminate].
  apply andb_negb_true in E as ->.
  destruct pa as [[]|e0]; cbn;
    [|intros [= ->]; split; [reflexivity|split; [swallow|reflexivity]]].
  destruct ia as [[]|e0]; cbn; [|discriminate].
  destruct ra as [[]|e0]; cbn; [discriminate|].
  intros [= ->]; split; [reflexivity|split; [swallow|reflexivity]].
Qed.

(** C5, as the code has it.  When the state of the browser, the title of
    the page, the screenshot or its decoding raises at a step boundary,
    [on_step_end] returns normally: it has advanced its counter and
    printed the error, appended no record and left the workflow as it
    was, and the agent's following hook calls run from there. *)
Theorem observation_error_is_printed_and_skipped
    (output_dir : string) (env : page_env) (s : episode) (e : exn) :
  observation_error env s = Some e ->
  fst (on_step_end output_dir env s) = Ok tt
  /\ swallowed e s (snd (on_step_end output_dir env s))
  /\ forall rest,
       run_hooks output_dir (StepEnd env :: rest) s
       = run_hooks output_dir rest (snd (on_step_end output_dir env s)).
Proof.
  intros Herr.
  destruct (observation_error_swallowed output_dir env s e Herr) as [Hok Hsw].
  split; [exact Hok|]. split; [exact Hsw|].
  intros rest. cbn [run_hooks run_hook]. unfold bind.
  destruct (on_step_end output_dir env s) as [[[]|e0] s']; [reflexivity|discriminate].
Qed.

End Swallowed.

Lemma observation_error_is_printed_and_skipped_witness :
  let env := Scenario.page_unreachable 43202000000%Z in
  let e := Exception "browser disconnected" in
  @observation_error Scenario.runtime env Scenario.start = Some e
  /\ fst (@on_step_end Scenario.runtime Scenario.dir env Scenario.start) = Ok tt
  /\ swallowed e Scenario.start
       (snd (@on_step_end Scenario.runtime Scenario.dir env Scenario.start))
  /\ forall rest,
       @run_hooks Scenario.runtime Scenario.dir (StepEnd env :: rest) Scenario.start
       = @run_hooks Scenario.runtime Scenario.dir rest
           (snd (@on_step_end Scenario.runtime Scenario.dir env Scenario.start)).
Proof.
  intros env e. split; [reflexivity|].
  apply (@observation_error_is_printed_and_skipped Scenario.runtime Scenario.dir
           env Scenario.start e).
  reflexivity.
Defined.

(** C5 fails as stated: the browser does not report its state at the
    first step boundary of an episode, and the trace stays empty; no
    record, failed or not, is appended. *)
Lemma failed_capture_leaves_no_record :
  let env := Scenario.page_unreachable 43202000000%Z in
  let s' := snd (@on_step_end Scenario.runtime Scenario.dir env Scenario.start) in
  @observation_error Scenario.runtime env Scenario.start
    = Some (Exception "browser disconnected")
  /\ ep_steps s' = []
  /\ ~ (exists r, ep_steps s' = ep_steps Scenario.start ++ [r]
                  /\ CapturedStep.success r = false).
Proof.
  intros env s'. split; [reflexivity|]. split; [reflexivity|].
  intros (r & Happ & _). vm_compute in Happ. discriminate Happ.
Qed.

(** ** The outcome of a task *)

Section Outcome.
Context `{Runtime}.

Lemma hooked_frame (user_input : string) (env : task_env) (w : world) :
  workflow (hooked user_input env w)
  = CapturedWorkflow.set_steps (ep_steps (hooked user_input env w))
      (new_workflow user_input env)
  /\ assignments (hooked user_input env w) = [].
Proof.
  destruct (after_hooks_frame (output_dir_of user_input env) (hook_calls env)
              (announced user_input env w)) as [Hw Ha].
  destruct (announced_fresh user_input env w) as (_ & Hnew & Hnil).
  fold (hooked user_input env w) in Hw, Ha.
  rewrite Hw, Ha, Hnew, Hnil. split; reflexivity.
Qed.

(** The workflow and the assignments at the end of the [try], by the
    answer of the agent. *)
Lemma finalized_cases (user_input : string) (env : task_env) (w : world) :
  let s1 := hooked user_input env w in
  let s2 := finalized user_input env w in
  match run_answer env with
  | Raise e =>
      workflow s2 = failed (now_failed env) e (workflow s1)
      /\ assignments s2 =
           [ Assign_completed_at (now_failed env); Assign_success false;
             Assign_error_summary (str_exn e) ]
  | Ok result =>
      match final_text result with
      | Ok text =>
          workflow s2 = finished (now_completed env) text (workflow s1)
          /\ assignments s2 =
               [ Assign_completed_at (now_completed env); Assign_success true;
                 Assign_final_result text;
                 Assign_total_duration_seconds
                   (now_completed env - CapturedWorkflow.started_at (workflow s1))%Z ]
      | Raise e =>
          workflow s2 =
            failed (now_failed env) e
              (CapturedWorkflow.set_success true
                 (CapturedWorkflow.set_completed_at
                    (Some (now_completed env)) (workflow s1)))
          /\ assignments s2 =
               [ Assign_completed_at (now_completed env); Assign_success true;
                 Assign_completed_at (now_failed env); Assign_success false;
                 Assign_error_summary (str_exn e) ]
      end
  end.
Proof.
  intros s1 s2. subst s1 s2. unfold finalized.
  destruct (attempt_spec (output_dir_of user_input env) env
              (announced user_input env w)) as (s2 & -> & _ & _ & _ & Hcases).
  cbn [snd] in *. fold (hooked user_input env w) in Hcases.
  destruct (hooked_frame user_input env w) as [_ Hnil].
  rewrite Hnil in Hcases. exact Hcases.
Qed.

(** A task whose run returns a result with a text ends as a success,
    whatever happened at its step boundaries. *)
Lemma returned_run_succeeds (api_key : option string) (user_input : string)
    (env : task_env) (w : world) (result : run_result) (text : string) :
  api_key_missing api_key = false ->
  run_answer env = Ok result ->
  final_text result = Ok text ->
  exists wf w',
    execute_task api_key user_input env w = (Ok wf, w')
    /\ CapturedWorkflow.success wf = true
    /\ CapturedWorkflow.error_summary wf = None
    /\ CapturedWorkflow.final_result wf = Some text.
Proof.
  intros Hkey Hrun Htext.
  destruct (execute_task_spec api_key user_input env w Hkey) as (w' & Hexec & _).
  eexists _, w'. split; [exact Hexec|].
  pose proof (finalized_cases user_input env w) as Hcases. cbn zeta in Hcases.
  rewrite Hrun, Htext in Hcases. destruct Hcases as [-> _].
  destruct (hooked_frame user_input env w) as [-> _].
  unfold new_workflow. destruct (detect_app user_input). repeat split.
Qed.

(** The terminal outcome of a task follows from the answer of its run
    alone: a success exactly when no exception reached the [except]
    branch, with the text of that exception as error summary. *)
Lemma task_outcome_follows_run (api_key : option string) (user_input : string)
    (env : task_env) (w : world) :
  api_key_missing api_key = false ->
  exists wf w',
    execute_task api_key user_input env w = (Ok wf, w')
    /\ (CapturedWorkflow.success wf = true <-> caught env = None)
    /\ CapturedWorkflow.error_summary wf = option_map str_exn (caught env).
Proof.
  intros Hkey.
  destruct (execute_task_spec api_key user_input env w Hkey) as (w' & Hexec & _).
  eexists _, w'. split; [exact Hexec|].
  pose proof (finalized_cases user_input env w) as Hcases. cbn zeta in Hcases.
  destruct (hooked_frame user_input env w) as [Hw _].
  unfold caught.
  destruct (run_answer env) as [result|e];
    [destruct (final_text result) as [text|e]|];
    destruct Hcases as [-> _]; rewrite Hw; unfold new_workflow;
    destruct (detect_app user_input); cbn; split; try reflexivity;
    split; congruence.
Qed.

(** C6, as the code has it.  When [agent.pause()] or [agent.resume()]
    raises during the handoff, [on_step_end] returns normally: it has
    printed the error, appended no record, assigned nothing to the
    workflow and left [login_handled] unset, and the agent's following
    hook calls run from there.  The episode is not ended by the error:
    whatever failed at its step boundaries, a task is finalized by the
    answer of its run alone, as a success exactly when the run returns a
    result whose text can be taken, and with the text of the exception
    that reached the [except] branch of [execute_task] as its error
    summary, none on a success. *)
Theorem handoff_error_is_printed_and_skipped
    (output_dir : string) (penv : page_env) (s : episode) (e : exn) :
  handoff_error penv s = Some e ->
  fst (on_step_end output_dir penv s) = Ok tt
  /\ swallowed e s (snd (on_step_end output_dir penv s))
  /\ latch (snd (on_step_end output_dir penv s)) = false
  /\ (forall rest,
        run_hooks output_dir (StepEnd penv :: rest) s
        = run_hooks output_dir rest (snd (on_step_end output_dir penv s)))
  /\ (forall api_key user_input env w,
        api_key_missing api_key = false ->
        exists wf w',
          execute_task api_key user_input env w = (Ok wf, w')
          /\ (CapturedWorkflow.success wf = true <-> caught env = None)
          /\ CapturedWorkflow.error_summary wf = option_map str_exn (caught env)).
Proof.
  intros Herr.
  destruct (handoff_error_swallowed output_dir penv s e Herr) as (Hok & Hsw & Hl).
  split; [exact Hok|]. split; [exact Hsw|]. split; [exact Hl|]. split.
  - intros rest. cbn [run_hooks run_hook]. unfold bind.
    destruct (on_step_end output_dir penv s) as [[[]|e0] s']; [reflexivity|discriminate].
  - intros api_key user_input env w Hkey.
    apply task_outcome_follows_run, Hkey.
Qed.

End Outcome.

Lemma handoff_error_is_printed_and_skipped_witness :
  let penv := Scenario.page_pause_raises Scenario.login "Log in to Linear" 43202000000%Z in
  let e := Exception "agent is not running" in
  let s' := snd (@on_step_end Scenario.runtime Scenario.dir penv Scenario.start) in
  let env := Scenario.task Scenario.pause_raises (Ok (Scenario.done "done")) in
  handoff_error penv Scenario.start = Some e
  /\ fst (@on_step_end Scenario.runtime Scenario.dir penv Scenario.start) = Ok tt
  /\ swallowed e Scenario.start s'
  /\ latch s' = false
  /\ exists wf w',
       @execute_task Scenario.runtime (Some "key") Scenario.query env empty_world
       = (Ok wf, w')
       /\ (CapturedWorkflow.success wf = true <-> caught env = None)
       /\ CapturedWorkflow.error_summary wf = option_map str_exn (caught env).
Proof.
  intros penv e s' env. split; [reflexivity|].
  destruct (@handoff_error_is_printed_and_skipped Scenario.runtime Scenario.dir
              penv Scenario.start e eq_refl) as (Hok & Hsw & Hl & _ & Htask).
  split; [exact Hok|]. split; [exact Hsw|]. split; [exact Hl|].
  exact (Htask (Some "key") Scenario.query env empty_world eq_refl).
Defined.

(** C6 fails as stated: [agent.pause()] raises at the only step boundary
    of the task, the run then returns, and the workflow is finalized as a
    success without error summary; its trace holds no record of the
    error. *)
Lemma failed_pause_does_not_fail_episode :
  let env := Scenario.task Scenario.pause_raises (Ok (Scenario.done "done")) in
  handoff_error
    (Scenario.page_pause_raises Scenario.login "Log in to Linear" 43202000000%Z)
    (@announced Scenario.runtime Scenario.query env empty_world)
  = Some (Exception "agent is not running")
  /\ exists wf,
       fst (@execute_task Scenario.runtime (Some "key") Scenario.query env empty_world)
       = Ok wf
       /\ CapturedWorkflow.success wf = true
       /\ CapturedWorkflow.error_summary wf = None
       /\ CapturedWorkflow.steps wf = [].
Proof.
  intros env. split; [reflexivity|].
  eexists. split; [vm_compute; reflexivity|]. repeat split.
Qed.

(** ** The terminal assignments *)

Section Finalize.
Context `{Runtime}.

(** C7, as the code has it.  [execute_task] has no finalize operation
    that could reject a second call: it assigns the terminal attributes
    directly.  When the run raises, or returns a result whose text can be
    taken, [completed_at] and [success] are each assigned exactly once
    in the episode, and the workflow returned is the one so assigned. *)
Theorem terminal_attributes_assigned_once
    (api_key : option string) (user_input : string) (env : task_env) (w : world) :
  api_key_missing api_key = false ->
  result_prints env = true ->
  (exists w',
     execute_task api_key user_input env w
     = (Ok (workflow (finalized user_input env w)), w'))
  /\ completed_at_writes (assignments (finalized user_input env w)) = 1
  /\ success_writes (assignments (finalized user_input env w)) = 1.
Proof.
  intros Hkey Hprints.
  destruct (execute_task_spec api_key user_input env w Hkey) as (w' & Hexec & _).
  split; [eauto|].
  pose proof (finalized_cases user_input env w) as Hcases. cbn zeta in Hcases.
  unfold result_prints in Hprints.
  destruct (run_answer env) as [result|e].
  - destruct (final_text result) as [text|e]; [|discriminate].
    destruct Hcases as [_ ->]. split; reflexivity.
  - destruct Hcases as [_ ->]. split; reflexivity.
Qed.

(** C10.  The workflow [execute_task] returns has [completed_at] set and
    exactly one of [final_result] and [error_summary]: a success holds
    the text of the result, ["Completed"] when the result is falsy, and
    no error summary; a failure holds the text of the exception caught
    and no final result. *)
Theorem terminal_fields_are_exclusive
    (api_key : option string) (user_input : string) (env : task_env) (w : world) :
  api_key_missing api_key = false ->
  exists wf w',
    execute_task api_key user_input env w = (Ok wf, w')
    /\ exclusive_outcome env wf.
Proof.
  intros Hkey.
  destruct (execute_task_spec api_key user_input env w Hkey) as (w' & Hexec & _).
  eexists _, w'. split; [exact Hexec|].
  pose proof (finalized_cases user_input env w) as Hcases. cbn zeta in Hcases.
  destruct (hooked_frame user_input env w) as [Hw _].
  unfold exclusive_outcome, caught.
  destruct (run_answer env) as [result|e] eqn:Hrun.
  - destruct (final_text result) as [text|e] eqn:Htext;
      destruct Hcases as [-> _]; rewrite Hw; unfold new_workflow;
      destruct (detect_app user_input); cbn.
    + split; [discriminate|]. split; [|discriminate].
      intros _. split; [|reflexivity].
      exists result, text. repeat split; try assumption.
      intros Hfalsy. unfold final_text in Htext. rewrite Hfalsy in Htext. congruence.
    + split; [discriminate|]. split; [discriminate|].
      intros _. split; [|reflexivity]. exists e. split; reflexivity.
  - destruct Hcases as [-> _]; rewrite Hw; unfold new_workflow;
      destruct (detect_app user_input); cbn.
    split; [discriminate|]. split; [discriminate|].
    intros _. split; [|reflexivity]. exists e. split; reflexivity.
Qed.

End Finalize.

Lemma terminal_attributes_assigned_once_witness :
  let env := Scenario.task Scenario.three_steps (Raise (Exception "agent crashed")) in
  api_key_missing (Some "key") = false
  /\ result_prints env = true
  /\ (exists w',
        @execute_task Scenario.runtime (Some "key") Scenario.query env empty_world
        = (Ok (workflow (@finalized Scenario.runtime Scenario.query env empty_world)), w'))
  /\ completed_at_writes
       (assignments (@finalized Scenario.runtime Scenario.query env empty_world)) = 1
  /\ success_writes
       (assignments (@finalized Scenario.runtime Scenario.query env empty_world)) = 1.
Proof.
  intros env. split; [reflexivity|]. split; [reflexivity|].
  apply (@terminal_attributes_assigned_once Scenario.runtime (Some "key")
           Scenario.query env empty_world); reflexivity.
Defined.

(** C7 fails as stated: the run returns a result whose [str] raises
    after [completed_at] and [success] were assigned, and the [except]
    branch assigns both again.  No call fails: the task returns its
    workflow, where the second values have replaced the first. *)
Lemma second_terminal_write_overwrites :
  let env := Scenario.task [] (Ok Scenario.unprintable) in
  assignments (@finalized Scenario.runtime Scenario.query env empty_world)
  = [ Assign_completed_at 43260000000%Z; Assign_success true;
      Assign_completed_at 43261000000%Z; Assign_success false;
      Assign_error_summary "history is not serialisable" ]
  /\ exists wf,
       fst (@execute_task Scenario.runtime (Some "key") Scenario.query env empty_world)
       = Ok wf
       /\ CapturedWorkflow.completed_at wf = Some 43261000000%Z
       /\ CapturedWorkflow.success wf = false.
Proof.
  intros env. split; [reflexivity|].
  eexists. split; [vm_compute; reflexivity|]. split; reflexivity.
Qed.

Lemma terminal_fields_are_exclusive_witness :
  let env := Scenario.task Scenario.three_steps (Ok (Scenario.done "done")) in
  api_key_missing (Some "key") = false
  /\ exists wf w',
       @execute_task Scenario.runtime (Some "key") Scenario.query env empty_world
       = (Ok wf, w')
       /\ exclusive_outcome env wf.
Proof.
  intros env. split; [reflexivity|].
  apply (@terminal_fields_are_exclusive Scenario.runtime (Some "key")
           Scenario.query env empty_world); reflexivity.
Defined.

(** C9 on a run that raises: the workflow is completed, a minute and a
    second after it started, and its total duration is not set. *)
Theorem failed_task_has_no_duration :
  let env := Scenario.task Scenario.three_steps (Raise (Exception "agent crashed")) in
  exists wf,
    fst (@execute_task Scenario.runtime (Some "key") Scenario.query env empty_world)
    = Ok wf
    /\ CapturedWorkflow.started_at wf = 43200000000%Z
    /\ CapturedWorkflow.completed_at wf = Some 43261000000%Z
    /\ CapturedWorkflow.total_duration_seconds wf = None.
Proof.
  intros env. eexists. split; [vm_compute; reflexivity|]. repeat split.
Qed.

(** ** The duration of a task *)

Section Duration.
Context `{Runtime}.

(** The [try] branch computes the duration from the two times of the
    workflow. *)
Lemma returned_run_has_duration (api_key : option string) (user_input : string)
    (env : task_env) (w : world) (result : run_result) (text : string) :
  api_key_missing api_key = false ->
  run_answer env = Ok result ->
  final_text result = Ok text ->
  exists wf w',
    execute_task api_key user_input env w = (Ok wf, w')
    /\ CapturedWorkflow.completed_at wf = Some (now_completed env)
    /\ CapturedWorkflow.total_duration_seconds wf
       = Some (now_completed env - CapturedWorkflow.started_at wf)%Z.
Proof.
  intros Hkey Hrun Htext.
  destruct (execute_task_spec api_key user_input env w Hkey) as (w' & Hexec & _).
  eexists _, w'. split; [exact Hexec|].
  pose proof (finalized_cases user_input env w) as Hcases. cbn zeta in Hcases.
  rewrite Hrun, Htext in Hcases. destruct Hcases as [-> _].
  split; reflexivity.
Qed.

(** The [except] branch sets the completion time and no duration. *)
Lemma raised_run_has_no_duration (api_key : option string) (user_input : string)
    (env : task_env) (w : world) (e : exn) :
  api_key_missing api_key = false ->
  run_answer env = Raise e ->
  exists wf w',
    execute_task api_key user_input env w = (Ok wf, w')
    /\ CapturedWorkflow.completed_at wf = Some (now_failed env)
    /\ CapturedWorkflow.total_duration_seconds wf = None.
Proof.
  intros Hkey Hrun.
  destruct (execute_task_spec api_key user_input env w Hkey) as (w' & Hexec & _).
  eexists _, w'. split; [exact Hexec|].
  pose proof (finalized_cases user_input env w) as Hcases. cbn zeta in Hcases.
  rewrite Hrun in Hcases. destruct Hcases as [-> _].
  destruct (hooked_frame user_input env w) as [-> _].
  unfold new_workflow. destruct (detect_app user_input). split; reflexivity.
Qed.

End Duration.

(** ** The batch *)

Section Batch.
Context `{Runtime}.
Variable api_key : option string.
Hypothesis key_present : api_key_missing api_key = false.





End Batch.




(** * Further properties of the program *)

(** ** Texts *)

Lemma str_append_assoc (a b c : string) : (a +:+ b) +:+ c = a +:+ b +:+ c.
Proof.
  induction a as [|x a IH]; [reflexivity|].
  rewrite !append_cons, IH. reflexivity.
Qed.

Lemma str_append_nil_r (a : string) : a +:+ EmptyString = a.
Proof.
  induction a as [|x a IH]; [reflexivity|]. rewrite append_cons, IH. reflexivity.
Qed.

Lemma str_length_append (a b : string) :
  String.length (a +:+ b) = String.length a + String.length b.
Proof.
  induction a as [|x a IH]; [reflexivity|]. rewrite append_cons. cbn. rewrite IH. reflexivity.
Qed.

Lemma lower_append (a b : string) :
  PyStr.lower (a +:+ b) = PyStr.lower a +:+ PyStr.lower b.
Proof.
  induction a as [|x a IH]; [reflexivity|].
  rewrite append_cons. cbn [PyStr.lower]. rewrite IH, append_cons. reflexivity.
Qed.

Lemma contains_ci_embed (a s b p : string) :
  contains_ci s p -> contains_ci (a +:+ s +:+ b) p.
Proof.
  intros (x & y & Hs). unfold contains_ci.
  exists (PyStr.lower a +:+ x), (y +:+ PyStr.lower b).
  rewrite !lower_append, Hs, !str_append_assoc. reflexivity.
Qed.

(** The classifier on explicit pattern lists, as a proposition. *)
Lemma is_login_page_contains (url title : string) :
  is_login_page url title = true <->
  (exists p, p ∈ LOGIN_URL_PATTERNS /\ contains_ci url p)
  \/ (exists i, i ∈ LOGIN_PAGE_INDICATORS /\ contains_ci title i).
Proof.
  unfold is_login_page.
  pose proof patterns_lower_case as Hlow.
  apply Forall_app in Hlow as [Hurl Htitle].
  rewrite <- (existsb_str_in url _ Hurl), <- (existsb_str_in title _ Htitle).
  destruct (existsb _ LOGIN_URL_PATTERNS); [tauto|].
  destruct (existsb _ LOGIN_PAGE_INDICATORS); [tauto|].
  split; [discriminate | intros [?|?]; discriminate].
Qed.

(** A login page stays one when its address or its title is extended on
    either side: a query string, a fragment or a site name around the
    title do not undo the detection. *)
Theorem is_login_page_extended (a url b c title d : string) :
  is_login_page url title = true ->
  is_login_page (a +:+ url +:+ b) (c +:+ title +:+ d) = true.
Proof.
  rewrite !is_login_page_contains.
  intros [(p & Hin & Hp)|(i & Hin & Hi)]; [left|right];
    eexists; (split; [exact Hin|]); apply contains_ci_embed; assumption.
Qed.

Lemma is_login_page_extended_witness :
  is_login_page "https://linear.app/login" "Linear" = true
  /\ is_login_page (EmptyString +:+ "https://linear.app/login" +:+ "?next=%2Fteam")
       ("Log in - " +:+ "Linear" +:+ EmptyString) = true.
Proof.
  split; [reflexivity|].
  apply (is_login_page_extended EmptyString "https://linear.app/login" "?next=%2Fteam"
           "Log in - " "Linear" EmptyString). reflexivity.
Defined.

(** ** The application registry *)

Lemma contains_ci_lower_key (input key : string) :
  PyStr.lower key = key ->
  contains_ci input key <-> PyStr.str_in key (PyStr.lower input) = true.
Proof.
  intros Hkey. unfold contains_ci. rewrite Hkey, str_in_spec. reflexivity.
Qed.

Lemma detect_app_in_spec (input : string) (items : list (string * app_config)) :
  Forall (fun kc => PyStr.lower (fst kc) = fst kc) items ->
  let r := detect_app_in (PyStr.lower input) items in
  (r = unknown_app
   /\ forall key c, (key, c) ∈ items -> ~ contains_ci input key)
  \/ (exists i,
        items !! i = Some r
        /\ contains_ci input (fst r)
        /\ forall j key c, j < i -> items !! j = Some (key, c) ->
                           ~ contains_ci input key).
Proof.
  induction items as [|[key0 c0] rest IH]; intros Hlow; cbn [detect_app_in].
  - left. split; [reflexivity|]. intros key c Hin. inversion Hin.
  - apply Forall_cons in Hlow as [Hkey0 Hrest]. cbn [fst] in Hkey0.
    destruct (PyStr.str_in key0 (PyStr.lower input)) eqn:E.
    + right. exists 0. split; [reflexivity|]. split.
      * apply contains_ci_lower_key; assumption.
      * intros j key c Hj. lia.
    + assert (Hnot : ~ contains_ci input key0).
      { rewrite contains_ci_lower_key by assumption. congruence. }
      destruct (IH Hrest) as [[Hr Hnone]|(i & Hi & Hin & Hbefore)].
      * left. split; [exact Hr|]. intros key c Hkc.
        apply elem_of_cons in Hkc as [[= -> ->]|Hkc]; eauto.
      * right. exists (S i). split; [exact Hi|]. split; [exact Hin|].
        intros [|j] key c Hj Hlook.
        -- injection Hlook as -> ->. exact Hnot.
        -- eapply Hbefore; [|exact Hlook]. lia.
Qed.

(** [detect_app] answers with the first entry of [APP_CONFIG], in its
    insertion order, whose key occurs in the request, case ignored; when
    no key occurs it answers with the ["unknown"] entry, whose address is
    empty, instead of failing. *)
Theorem detect_app_first_match (user_input : string) :
  let r := detect_app user_input in
  (r = unknown_app
   /\ forall key c, (key, c) ∈ APP_CONFIG -> ~ contains_ci user_input key)
  \/ (exists i,
        APP_CONFIG !! i = Some r
        /\ contains_ci user_input (fst r)
        /\ forall j key c, j < i -> APP_CONFIG !! j = Some (key, c) ->
                           ~ contains_ci user_input key).
Proof.
  apply detect_app_in_spec. repeat constructor.
Qed.

(** ** The slug of a request *)

Lemma length_map_chars (f : ascii -> ascii) (s : string) :
  String.length (PyStr.map_chars f s) = String.length s.
Proof. induction s as [|c s IH]; cbn; congruence. Qed.

Lemma length_take (n : nat) (s : string) :
  String.length (PyStr.take n s) = Nat.min n (String.length s).
Proof.
  revert s; induction n as [|n IH]; intros [|c s]; cbn; try reflexivity.
  rewrite IH. reflexivity.
Qed.

Lemma take_all (n : nat) (s : string) :
  String.length s <= n -> PyStr.take n s = s.
Proof.
  revert s; induction n as [|n IH]; intros [|c s]; cbn; intros Hlen;
    try reflexivity; try lia.
  rewrite IH by lia. reflexivity.
Qed.

Lemma all_chars_map_chars (p : ascii -> bool) (f : ascii -> ascii) (s : string) :
  (forall c, p (f c) = true) -> all_chars p (PyStr.map_chars f s) = true.
Proof.
  intros Hf. induction s as [|c s IH]; cbn; [reflexivity|].
  rewrite Hf, IH. reflexivity.
Qed.

Lemma map_chars_id (p : ascii -> bool) (f : ascii -> ascii) (s : string) :
  (forall c, p c = true -> f c = c) ->
  all_chars p s = true -> PyStr.map_chars f s = s.
Proof.
  intros Hf. induction s as [|c s IH]; cbn; [reflexivity|].
  intros [Hc Hs]%andb_true_iff. rewrite (Hf c Hc), (IH Hs). reflexivity.
Qed.

Lemma map_chars_compose (f g : ascii -> ascii) (s : string) :
  PyStr.map_chars f (PyStr.map_chars g s) = PyStr.map_chars (fun c => f (g c)) s.
Proof. induction s as [|c s IH]; cbn; congruence. Qed.

Lemma space_not_alnum (c : ascii) : PyStr.isalnum c = true -> c <> " "%char.
Proof. intros Hc ->. discriminate Hc. Qed.

Lemma slug_char_cases (c : ascii) :
  slug_char c = true -> PyStr.isalnum c = true \/ c = "_"%char.
Proof.
  unfold slug_char. intros [Hc|Hc]%orb_true_iff; [left; exact Hc|].
  right. apply Ascii.eqb_eq, Hc.
Qed.

(** The slug of a request written in ASCII characters has the length of
    the request up to 40 characters, is made of ASCII letters, digits
    and ["_"] only, and is its own slug. *)
Theorem safe_name_is_slug (user_input : string) :
  all_chars is_ascii user_input = true ->
  String.length (safe_name user_input) = Nat.min 40 (String.length user_input)
  /\ all_chars slug_char (safe_name user_input) = true
  /\ safe_name (safe_name user_input) = safe_name user_input.
Proof.
  intros _.
  assert (Hslug : forall s, all_chars slug_char (safe_name s) = true).
  { intros s. unfold safe_name. rewrite map_chars_compose.
    apply all_chars_map_chars. intros c. unfold slug_char.
    destruct (Ascii.eqb_spec c " ") as [->|Hne]; [reflexivity|].
    destruct (PyStr.isalnum c) eqn:Ha; cbn [orb].
    - apply Ascii.eqb_neq in Hne. rewrite Hne, Ha. reflexivity.
    - reflexivity. }
  split; [|split; [apply Hslug|]].
  - unfold safe_name. rewrite !length_map_chars. apply length_take.
  - assert (Hlen : String.length (safe_name user_input) <= 40).
    { unfold safe_name. rewrite !length_map_chars, length_take. lia. }
    pose proof (Hslug user_input) as Hs. revert Hs Hlen.
    generalize (safe_name user_input). intros s Hs Hlen.
    unfold safe_name. rewrite (take_all 40 s Hlen), map_chars_compose.
    apply (map_chars_id slug_char); [|apply Hs].
    intros c [Hc| ->]%slug_char_cases; [|reflexivity].
    rewrite Hc. cbn.
    destruct (Ascii.eqb_spec c " ") as [->|_]; [discriminate Hc|reflexivity].
Qed.

Lemma safe_name_is_slug_witness :
  all_chars is_ascii Scenario.query = true
  /\ String.length (safe_name Scenario.query) = 36
  /\ all_chars slug_char (safe_name Scenario.query) = true
  /\ safe_name (safe_name Scenario.query) = safe_name Scenario.query.
Proof.
  split; [reflexivity|].
  exact (safe_name_is_slug Scenario.query eq_refl).
Defined.

(** ** Screenshot file names *)

Lemma digit_is_digit (d : nat) :
  d < 10 -> is_digit (PyStr.digit d) = true /\ nat_of_ascii (PyStr.digit d) - 48 = d.
Proof.
  intros Hd. do 10 (destruct d as [|d]; [split; reflexivity|]). lia.
Qed.

Lemma decimal_fuel_append (fuel n : nat) (acc tail : string) :
  PyStr.decimal_fuel fuel n acc +:+ tail = PyStr.decimal_fuel fuel n (acc +:+ tail).
Proof.
  revert n acc; induction fuel as [|fuel IH]; intros n acc; [reflexivity|].
  cbn [PyStr.decimal_fuel]. destruct (n <? 10)%nat; [reflexivity|].
  rewrite IH. reflexivity.
Qed.

Lemma read_digits_decimal_fuel (fuel n : nat) (rest : string) :
  n < fuel ->
  exists k, forall a,
    read_digits a (PyStr.decimal_fuel fuel n rest) = read_digits (a * 10 ^ k + n) rest.
Proof.
  revert n rest; induction fuel as [|fuel IH]; intros n rest Hn; [lia|].
  cbn [PyStr.decimal_fuel].
  assert (Hmod : n `mod` 10 < 10) by (apply Nat.mod_upper_bound; lia).
  destruct (digit_is_digit (n `mod` 10) Hmod) as [Hdig Hval].
  destruct (Nat.ltb_spec n 10) as [Hsmall|Hbig].
  - exists 1. intros a. cbn [read_digits]. rewrite Hdig, Hval.
    rewrite Nat.mod_small by assumption. f_equal. cbn [Nat.pow]. lia.
  - assert (Hdiv : n / 10 < fuel).
    { pose proof (Nat.div_mod_eq n 10). lia. }
    destruct (IH (n / 10) (String (PyStr.digit (n `mod` 10)) rest) Hdiv) as [k Hk].
    exists (S k). intros a. rewrite Hk. cbn [read_digits]. rewrite Hdig, Hval.
    f_equal. pose proof (Nat.div_mod_eq n 10). cbn [Nat.pow]. lia.
Qed.

Lemma read_digits_zeros (k : nat) (s : string) :
  read_digits 0 (PyStr.zeros k +:+ s) = read_digits 0 s.
Proof.
  induction k as [|k IH]; [reflexivity|].
  cbn [PyStr.zeros]. rewrite append_cons. exact IH.
Qed.

Lemma read_digits_format_03d (n : nat) (tail : string) :
  read_digits 0 (PyStr.format_03d n +:+ String "." tail) = n.
Proof.
  unfold PyStr.format_03d, PyStr.decimal.
  rewrite str_append_assoc, read_digits_zeros, decimal_fuel_append.
  destruct (read_digits_decimal_fuel (S n) n (EmptyString +:+ String "." tail))
    as [k ->]; [lia|].
  reflexivity.
Qed.

Lemma screenshot_filename_inj (n m : nat) :
  screenshot_filename n = screenshot_filename m -> n = m.
Proof.
  intros Heq. apply (f_equal (fun name => read_digits 0 (skip 5 name))) in Heq.
  unfold screenshot_filename in Heq.
  change (skip 5 ("step_" +:+ PyStr.format_03d n +:+ ".png"))
    with (PyStr.format_03d n +:+ String "." "png") in Heq.
  change (skip 5 ("step_" +:+ PyStr.format_03d m +:+ ".png"))
    with (PyStr.format_03d m +:+ String "." "png") in Heq.
  rewrite !read_digits_format_03d in Heq. exact Heq.
Qed.

(** The ordinal of a step is read back from the name of its screenshot
    file, whatever its number of digits; two steps therefore never share
    a file name. *)
Theorem screenshot_filename_round_trip :
  (forall n, step_of_filename (screenshot_filename n) = n)
  /\ (forall n m, screenshot_filename n = screenshot_filename m -> n = m).
Proof.
  assert (Hround : forall n, step_of_filename (screenshot_filename n) = n).
  { intros n. unfold step_of_filename, screenshot_filename.
    change (skip 5 ("step_" +:+ PyStr.format_03d n +:+ ".png"))
      with (PyStr.format_03d n +:+ String "." "png").
    apply read_digits_format_03d. }
  split; [exact Hround|].
  intros n m Heq. rewrite <- (Hround n), <- (Hround m), Heq. reflexivity.
Qed.

(** ** One step boundary, in full *)

Section Boundary.
Context `{Runtime}.

Lemma on_step_end_effect (output_dir : string) (env : page_env) (s : episode) :
  boundary_effect output_dir env s (snd (on_step_end output_dir env s)).
Proof.
  destruct s as [w [n st lh wl] wf asg]; destruct wf.
  destruct env as [bs ti pa ia ra sa ma nd nt].
  unfold_hook; cbn. rewrite Nat.add_1_r.
  destruct bs as [state|e]; cbn;
    [|apply boundary_skipped; unfold_obs; cbn; auto].
  destruct ti as [title|e]; cbn;
    [|apply boundary_skipped; unfold_obs; cbn; auto].
  destruct (is_login_page _ _ && negb lh) eqn:E; cbn.
  - pose proof E as [Hlogin Hlh]%andb_true_iff.
    apply negb_true_iff in Hlh. subst lh.
    destruct pa as [[]|e]; cbn;
      [|apply boundary_skipped; unfold_obs; unfold sees_login; cbn; auto;
       intros Hc; rewrite Hlogin in Hc; discriminate Hc].
    destruct ia as [[]|e]; cbn;
      [|apply boundary_skipped; unfold_obs; unfold sees_login; cbn; auto;
       intros Hc; rewrite Hlogin in Hc; discriminate Hc].
    destruct ra as [[]|e]; cbn;
      [|apply boundary_skipped; unfold_obs; unfold sees_login; cbn; auto;
       intros Hc; rewrite Hlogin in Hc; discriminate Hc].
    eapply boundary_handed_over; unfold_obs; cbn; rewrite <- ?app_assoc;
      try reflexivity. exact Hlogin.
  - destruct sa as [shot|e]; cbn;
      [|apply boundary_skipped; unfold_obs; cbn; auto].
    destruct shot as [b|t|t]; cbn; try destruct (b64decode t) as [b|e]; cbn.
    all: try (apply boundary_skipped; unfold_obs; cbn; auto; fail).
    all: destruct ma as [actions|e]; cbn.
    all: try (apply boundary_skipped; unfold_obs; cbn; eauto; fail).
    all: destruct (describe_actions actions) as [a d] eqn:Hd.
    all: eapply (boundary_captured _ _ _ _ _ _ b actions);
      unfold_obs; cbn; rewrite ?Hd; try reflexivity; try exact E.
    all: destruct st; reflexivity.
Qed.

End Boundary.
(** ** The world a task leaves *)

Section World.
Context `{Runtime}.

Ltac unfold_task :=
  unfold attempt, agent_run, on_run_returned, on_run_raised, assign, raise,
    persist, announce;
  unfold_hook.

Lemma announced_world (user_input : string) (env : task_env) (w : world) :
  fs (ep_world (announced user_input env w))
  = <[output_dir_of user_input env := Directory]>
      (<["ui_dataset" := Directory]> (fs w))
  /\ ep_driver (announced user_input env w) = driver w.
Proof. split; reflexivity. Qed.

Lemma attempt_world (output_dir : string) (env : task_env) (s : episode) :
  let s1 := after_hooks output_dir (hook_calls env) s in
  let s2 := snd (attempt output_dir env s) in
  fs (ep_world s2) = fs (ep_world s1) /\ ep_driver s2 = ep_driver s1.
Proof.
  intros s1. unfold_task. rewrite run_hooks_total. fold s1.
  destruct s1 as [w sd wf asg]; destruct wf.
  destruct (run_answer env) as [result|e]; cbn;
    [destruct (final_text result) as [text|e]; cbn|]; split; reflexivity.
Qed.

(** With the key present, the world [execute_task] leaves holds the
    files of the hooks' run and the dump of the workflow, and has seen
    the calls on the agent the hooks made. *)
Lemma execute_task_world (api_key : option string) (user_input : string)
    (env : task_env) (w : world) :
  api_key_missing api_key = false ->
  exists w',
    execute_task api_key user_input env w
      = (Ok (workflow (finalized user_input env w)), w')
    /\ fs w'
       = <[path_join (output_dir_of user_input env) "workflow.json"
             := WorkflowJson (workflow (finalized user_input env w))]>
           (fs (ep_world (hooked user_input env w)))
    /\ driver w' = ep_driver (hooked user_input env w).
Proof.
  intros Hkey. unfold execute_task. rewrite Hkey.
  destruct (attempt_world (output_dir_of user_input env) env
              (announced user_input env w)) as [Hfs Hdr].
  fold (hooked user_input env w) in Hfs, Hdr.
  fold (finalized user_input env w) in Hfs, Hdr.
  unfold run_episode. cbn zeta.
  unfold bind at 1.
  destruct (announce user_input (output_dir_of user_input env)
              (new_episode user_input env w)) as [[[]|e] sa] eqn:Ea;
    [|unfold announce in Ea; unfold_hook; cbn in Ea; discriminate].
  assert (sa = announced user_input env w) as ->
    by (unfold announced; rewrite Ea; reflexivity).
  unfold bind at 1. rewrite (finalized_eq user_input env w).
  unfold persist; unfold_hook; cbn.
  eexists; split; [reflexivity|]. cbn. rewrite Hfs. split; [reflexivity|].
  exact Hdr.
Qed.

Lemma str_append_cancel_l (p a b : string) : p +:+ a = p +:+ b -> a = b.
Proof.
  induction p as [|c p IH]; intros Heq; [exact Heq|].
  rewrite !append_cons in Heq. apply IH. congruence.
Qed.

Lemma path_join_inj (dir a b : string) :
  path_join dir a = path_join dir b -> a = b.
Proof.
  unfold path_join. intros Heq.
  apply str_append_cancel_l in Heq. apply str_append_cancel_l in Heq. exact Heq.
Qed.

Lemma path_join_not_dir (dir a : string) : path_join dir a <> dir.
Proof.
  intros Heq. apply (f_equal String.length) in Heq.
  unfold path_join in Heq. rewrite !str_length_append in Heq. cbn in Heq. lia.
Qed.

Lemma screenshot_not_dump (dir : string) (n : nat) :
  path_join dir "workflow.json" <> path_join dir (screenshot_filename n).
Proof.
  intros Heq%path_join_inj. unfold screenshot_filename in Heq.
  rewrite append_cons in Heq. discriminate Heq.
Qed.

Lemma files_present_write (output_dir name : string) (b : bytes)
    (files : gmap string file) (trace : list CapturedStep.t) :
  files_present output_dir files trace ->
  files_present output_dir (<[path_join output_dir name := BinaryFile b]> files) trace.
Proof.
  intros [Hdir Hfiles]. split.
  - rewrite lookup_insert_ne; [exact Hdir|apply path_join_not_dir].
  - intros r Hr Hcap. destruct (Hfiles r Hr Hcap) as (n & b' & Hname & Hlook).
    exists n. rewrite lookup_insert. destruct (decide _); eauto.
Qed.

Lemma files_present_boundary (output_dir : string) (env : page_env) (s s' : episode) :
  boundary_effect output_dir env s s' ->
  files_present output_dir (fs (ep_world s)) (ep_steps s) ->
  files_present output_dir (fs (ep_world s')) (ep_steps s').
Proof.
  intros Heff Hpres.
  destruct Heff as [Hst _ [Hfs|[b Hfs]] _
                   | u t _ _ _ _ _ Hst Hfs _
                   | u t b actions _ _ _ _ _ _ Hst Hfs]; rewrite Hst, Hfs.
  - exact Hpres.
  - apply files_present_write, Hpres.
  - destruct Hpres as [Hdir Hfiles]. split; [exact Hdir|].
    intros r [Hr|Hr]%elem_of_app Hcap; [eauto|].
    apply list_elem_of_singleton in Hr. subst r. discriminate Hcap.
  - pose proof (files_present_write output_dir
                  (screenshot_filename (S (sd_count s))) b _ _ Hpres)
      as [Hdir Hfiles].
    split; [exact Hdir|]. intros r [Hr|Hr]%elem_of_app Hcap.
    + apply (Hfiles r Hr Hcap).
    + apply list_elem_of_singleton in Hr. subst r. cbn.
      exists (S (sd_count s)), b. split; [reflexivity|]. apply lookup_insert_eq.
Qed.

(** When [execute_task] has returned, the directory of the episode
    exists and every captured step of the returned trace has its
    screenshot file in it, beside the dump of the workflow. *)
Theorem screenshots_are_on_disk
    (api_key : option string) (user_input : string) (env : task_env) (w : world) :
  api_key_missing api_key = false ->
  exists wf w',
    execute_task api_key user_input env w = (Ok wf, w')
    /\ files_present (output_dir_of user_input env) (fs w') (CapturedWorkflow.steps wf).
Proof.
  intros Hkey.
  destruct (execute_task_world api_key user_input env w Hkey) as (w' & Hexec & Hfs & _).
  eexists _, w'. split; [exact Hexec|].
  change (CapturedWorkflow.steps (workflow (finalized user_input env w)))
    with (ep_steps (finalized user_input env w)).
  rewrite finalized_steps, Hfs.
  set (out := output_dir_of user_input env).
  assert (Hhooked : files_present out (fs (ep_world (hooked user_input env w)))
                      (ep_steps (hooked user_input env w))).
  { unfold hooked. fold out.
    apply (after_hooks_invariant out
             (fun s => files_present out (fs (ep_world s)) (ep_steps s))).
    - intros s now Hs.
      destruct (on_step_start_spec now s) as (s' & -> & _ & _ & _ & _ & Hst & Hw).
      cbn. rewrite Hst, Hw. exact Hs.
    - intros s penv Hs. eapply files_present_boundary; [|exact Hs].
      apply on_step_end_effect.
    - destruct (announced_fresh user_input env w) as [[_ Hnil] _].
      destruct (announced_world user_input env w) as [Hfs0 _].
      rewrite Hnil, Hfs0. split; [apply lookup_insert_eq|].
      intros r Hr. inversion Hr. }
  destruct Hhooked as [Hdir Hfiles]. split.
  - rewrite lookup_insert_ne; [exact Hdir|apply path_join_not_dir].
  - intros r Hr Hcap. destruct (Hfiles r Hr Hcap) as (n & b & Hname & Hlook).
    exists n, b. split; [exact Hname|].
    rewrite lookup_insert_ne; [exact Hlook|].
    rewrite Hname. apply screenshot_not_dump.
Qed.

End World.

Lemma screenshots_are_on_disk_witness :
  let env := Scenario.task Scenario.three_steps (Ok (Scenario.done "done")) in
  api_key_missing (Some "key") = false
  /\ exists wf w',
       @execute_task Scenario.runtime (Some "key") Scenario.query env empty_world
       = (Ok wf, w')
       /\ files_present (@output_dir_of Scenario.runtime Scenario.query env) (fs w')
            (CapturedWorkflow.steps wf).
Proof.
  intros env. split; [reflexivity|].
  apply (@screenshots_are_on_disk Scenario.runtime (Some "key") Scenario.query env
           empty_world). reflexivity.
Defined.

(** ** The records of a trace, in detail *)

Section Trace.
Context `{Runtime}.

Lemma hooked_numbered (user_input : string) (env : task_env) (w : world) :
  numbered (hooked user_input env w).
Proof. apply after_hooks_numbered, fresh_numbered, announced_fresh. Qed.

Lemma hooked_from_hook (user_input : string) (env : task_env) (w : world) :
  Forall from_hook (ep_steps (hooked user_input env w)).
Proof.
  apply after_hooks_from_hook.
  destruct (announced_fresh user_input env w) as [[_ ->] _]. constructor.
Qed.

Lemma captured_screenshot (r : CapturedStep.t) :
  from_hook r ->
  CapturedStep.required_manual_login r = false ->
  CapturedStep.screenshot r = screenshot_filename (CapturedStep.step_number r).
Proof.
  intros [(_ & _ & _ & Hflag)|[(n & now & a & d & u & t & ms & ->) _]] Hcap.
  - congruence.
  - reflexivity.
Qed.

(** In the trace [execute_task] returns, the screenshot reference of a
    captured step is the file name of its own ordinal, and no two
    captured steps refer to the same file. *)
Theorem screenshots_are_distinct
    (api_key : option string) (user_input : string) (env : task_env) (w : world) :
  api_key_missing api_key = false ->
  exists wf w',
    execute_task api_key user_input env w = (Ok wf, w')
    /\ distinct_screenshots (CapturedWorkflow.steps wf).
Proof.
  intros Hkey.
  destruct (execute_task_spec api_key user_input env w Hkey) as (w' & Hexec & _).
  eexists _, w'. split; [exact Hexec|].
  change (CapturedWorkflow.steps (workflow (finalized user_input env w)))
    with (ep_steps (finalized user_input env w)).
  rewrite finalized_steps.
  pose proof (hooked_from_hook user_input env w) as Hall.
  destruct (hooked_numbered user_input env w) as (_ & _ & Hsorted).
  rewrite Forall_forall in Hall. split.
  - intros r Hr Hcap. apply captured_screenshot; auto.
  - intros i j ri rj Hij Hi Hj Hci Hcj Heq.
    rewrite (captured_screenshot ri), (captured_screenshot rj) in Heq;
      eauto using list_elem_of_lookup_2.
    apply screenshot_filename_inj in Heq.
    destruct (Nat.lt_gt_cases i j) as [Hcases _].
    destruct (Hcases Hij) as [Hlt|Hgt].
    + pose proof (Hsorted i j ri rj Hlt Hi Hj). lia.
    + pose proof (Hsorted j i rj ri Hgt Hj Hi). lia.
Qed.

Lemma login_first_boundary (output_dir : string) (env : page_env) (s s' : episode) :
  boundary_effect output_dir env s s' ->
  (latch s = false -> forall r, r ∈ ep_steps s -> on_login_page r = false)
  /\ login_first (ep_steps s) ->
  (latch s' = false -> forall r, r ∈ ep_steps s' -> on_login_page r = false)
  /\ login_first (ep_steps s').
Proof.
  intros Heff [Hopen [Hmanual Hbefore]].
  destruct Heff as [Hst Hl _ _
                   | u t _ _ Hlogin Hl Hl' Hst _ _
                   | u t b actions _ _ Hnot _ Hl _ Hst _]; rewrite Hst.
  - rewrite Hl. repeat split; assumption.
  - rewrite Hl'. split; [discriminate|]. split.
    + intros r [Hr|Hr]%elem_of_app Hflag; [eauto|].
      apply list_elem_of_singleton in Hr. subst r. exact Hlogin.
    + intros i j ri rj Hij Hi Hj Hflag.
      apply lookup_app_Some in Hj as [Hj|[_ Hj]].
      * rewrite lookup_app_l in Hi by (apply lookup_lt_Some in Hj; lia). eauto.
      * apply lookup_app_Some in Hi as [Hi|[Hlen Hi]].
        -- apply (Hopen Hl). eapply list_elem_of_lookup_2, Hi.
        -- apply list_lookup_singleton_Some in Hj as [Hj0 _].
           apply list_lookup_singleton_Some in Hi as [Hi0 _]. lia.
  - rewrite Hl. split; [|split].
    + intros Hlatch r [Hr|Hr]%elem_of_app; [eauto|].
      apply list_elem_of_singleton in Hr. subst r.
      rewrite Hlatch, andb_true_r in Hnot. exact Hnot.
    + intros r [Hr|Hr]%elem_of_app Hflag; [eauto|].
      apply list_elem_of_singleton in Hr. subst r. discriminate Hflag.
    + intros i j ri rj Hij Hi Hj Hflag.
      apply lookup_app_Some in Hj as [Hj|[_ Hj]].
      * rewrite lookup_app_l in Hi by (apply lookup_lt_Some in Hj; lia). eauto.
      * apply list_lookup_singleton_Some in Hj as [_ <-]. discriminate Hflag.
Qed.

(** In the trace [execute_task] returns, the manual-login record sits on
    a page classified as a login page, and no record before it in the
    trace does. *)
Theorem handoff_is_first_login_page
    (api_key : option string) (user_input : string) (env : task_env) (w : world) :
  api_key_missing api_key = false ->
  exists wf w',
    execute_task api_key user_input env w = (Ok wf, w')
    /\ login_first (CapturedWorkflow.steps wf).
Proof.
  intros Hkey.
  destruct (execute_task_spec api_key user_input env w Hkey) as (w' & Hexec & _).
  eexists _, w'. split; [exact Hexec|].
  change (CapturedWorkflow.steps (workflow (finalized user_input env w)))
    with (ep_steps (finalized user_input env w)).
  rewrite finalized_steps. unfold hooked.
  apply (after_hooks_invariant (output_dir_of user_input env)
           (fun s => (latch s = false ->
                      forall r, r ∈ ep_steps s -> on_login_page r = false)
                     /\ login_first (ep_steps s))).
  - intros s now Hs.
    destruct (on_step_start_spec now s) as (s' & -> & _ & _ & Hl & _ & Hst & _).
    cbn. rewrite Hst, Hl. exact Hs.
  - intros s penv Hs. eapply login_first_boundary; [|exact Hs].
    apply on_step_end_effect.
  - destruct (announced_fresh user_input env w) as [[_ Hnil] _]. rewrite Hnil.
    split; [|split].
    + intros _ r Hr. inversion Hr.
    + intros r Hr. inversion Hr.
    + intros i j ri rj _ Hi. discriminate Hi.
Qed.





End Trace.

Lemma screenshots_are_distinct_witness :
  let env := Scenario.task Scenario.three_steps (Ok (Scenario.done "done")) in
  api_key_missing (Some "key") = false
  /\ exists wf w',
       @execute_task Scenario.runtime (Some "key") Scenario.query env empty_world
       = (Ok wf, w')
       /\ distinct_screenshots (CapturedWorkflow.steps wf).
Proof.
  intros env. split; [reflexivity|].
  apply (@screenshots_are_distinct Scenario.runtime (Some "key") Scenario.query env
           empty_world). reflexivity.
Defined.

Lemma handoff_is_first_login_page_witness :
  let env := Scenario.task Scenario.three_steps (Ok (Scenario.done "done")) in
  api_key_missing (Some "key") = false
  /\ exists wf w',
       @execute_task Scenario.runtime (Some "key") Scenario.query env empty_world
       = (Ok wf, w')
       /\ login_first (CapturedWorkflow.steps wf).
Proof.
  intros env. split; [reflexivity|].
  apply (@handoff_is_first_login_page Scenario.runtime (Some "key") Scenario.query
           env empty_world). reflexivity.
Defined.


(** ** The calls on the agent *)

Section Calls.
Context `{Runtime}.

Lemma no_login_boundary (output_dir : string) (env : page_env) (s s' : episode) :
  sees_login env = false ->
  boundary_effect output_dir env s s' ->
  ep_driver s' = ep_driver s
  /\ manual_steps (ep_steps s') = manual_steps (ep_steps s).
Proof.
  intros Hno Heff.
  destruct Heff as [Hst _ _ Hdr
                   | u t Hu Ht Hlogin _ _ _ _ _
                   | u t b actions _ _ _ _ _ Hdr Hst _].
  - rewrite Hst. split; [|reflexivity]. apply Hdr. rewrite Hno. reflexivity.
  - unfold sees_login in Hno. rewrite Hu, Ht in Hno. congruence.
  - rewrite Hst, manual_steps_app. cbn. rewrite app_nil_r. auto.
Qed.

Lemma after_hooks_no_login (output_dir : string) (calls : list hook_call)
    (s : episode) :
  (forall penv, StepEnd penv ∈ calls -> sees_login penv = false) ->
  ep_driver (after_hooks output_dir calls s) = ep_driver s
  /\ manual_steps (ep_steps (after_hooks output_dir calls s))
     = manual_steps (ep_steps s).
Proof.
  revert s; induction calls as [|c rest IH]; intros s Hno; [split; reflexivity|].
  rewrite after_hooks_cons.
  destruct (IH (snd (run_hook output_dir c s))) as [Hdr Hman].
  { intros penv Hin. apply Hno. right. exact Hin. }
  rewrite Hdr, Hman. destruct c as [now|penv]; cbn [run_hook].
  - destruct (on_step_start_spec now s) as (s' & -> & _ & _ & _ & _ & Hst & Hw).
    cbn. unfold ep_driver. rewrite Hst, Hw. split; reflexivity.
  - apply (no_login_boundary output_dir penv).
    + apply Hno. left.
    + apply on_step_end_effect.
Qed.

(** A task whose step boundaries never observe a login page makes no
    call on the agent or the console, neither pause nor read nor resume,
    and its trace holds no manual-login record. *)
Theorem no_login_page_no_pause
    (api_key : option string) (user_input : string) (env : task_env) (w : world) :
  api_key_missing api_key = false ->
  (forall penv, StepEnd penv ∈ hook_calls env -> sees_login penv = false) ->
  exists wf w',
    execute_task api_key user_input env w = (Ok wf, w')
    /\ driver w' = driver w
    /\ manual_steps (CapturedWorkflow.steps wf) = [].
Proof.
  intros Hkey Hno.
  destruct (execute_task_world api_key user_input env w Hkey) as (w' & Hexec & _ & Hdr).
  eexists _, w'. split; [exact Hexec|].
  change (CapturedWorkflow.steps (workflow (finalized user_input env w)))
    with (ep_steps (finalized user_input env w)).
  rewrite finalized_steps, Hdr. unfold hooked.
  destruct (after_hooks_no_login (output_dir_of user_input env) (hook_calls env)
              (announced user_input env w) Hno) as [-> ->].
  destruct (announced_fresh user_input env w) as [[_ ->] _].
  destruct (announced_world user_input env w) as [_ ->]. split; reflexivity.
Qed.

(** A handoff that fails, because the pause, the read of the console or
    the resume raises, is abandoned where it failed: the calls stop at
    the one that raised, so that a failed read leaves the agent paused
    and never resumed; [waiting_for_login] stays set, [login_handled]
    stays unset and no record is appended. *)
Theorem failed_handoff_is_abandoned
    (output_dir : string) (penv : page_env) (s : episode) (e : exn) :
  sees_login penv = true ->
  latch s = false ->
  handoff_failure penv = Some e ->
  let s' := snd (on_step_end output_dir penv s) in
  fst (on_step_end output_dir penv s) = Ok tt
  /\ ep_driver s' = ep_driver s ++ handoff_calls penv
  /\ waiting s' = true
  /\ latch s' = false
  /\ ep_steps s' = ep_steps s.
Proof.
  destruct s as [w [n st lh wl] wf asg]; destruct wf.
  destruct penv as [bs ti pa ia ra sa ma nd nt].
  unfold sees_login, observed_url, observed_title, handoff_failure, handoff_calls,
    latch, waiting, ep_driver, ep_steps; unfold_hook; cbn.
  intros Hlogin -> Hfail.
  destruct bs as [state|e0]; [|discriminate Hlogin].
  destruct ti as [title|e0]; [|discriminate Hlogin].
  cbn. rewrite Hlogin. cbn.
  destruct pa as [[]|e0]; cbn; [|repeat split].
  destruct ia as [[]|e0]; cbn; [|rewrite <- ?app_assoc; repeat split].
  destruct ra as [[]|e0]; cbn; [discriminate Hfail|].
  rewrite <- ?app_assoc; repeat split.
Qed.

Lemma handoff_appends_record (output_dir : string) (penv : page_env) (s : episode) :
  hands_over penv s = true ->
  exists r,
    ep_steps (snd (on_step_end output_dir penv s)) = ep_steps s ++ [r]
    /\ handoff_record r.
Proof.
  destruct s as [w [n st lh wl] wf asg]; destruct wf.
  destruct penv as [bs ti pa ia ra sa ma nd nt].
  unfold hands_over, sees_login, observed_url, observed_title, handoff_failure,
    latch, ep_steps; unfold_hook; cbn.
  destruct bs as [state|e0]; [|discriminate].
  destruct ti as [title|e0]; [|discriminate].
  cbn. intros [[Hlogin Hlh]%andb_true_iff Hfine]%andb_true_iff.
  apply negb_true_iff in Hlh. subst lh. rewrite Hlogin. cbn.
  destruct pa as [[]|e0]; [|discriminate Hfine].
  destruct ia as [[]|e0]; [|discriminate Hfine].
  destruct ra as [[]|e0]; [|discriminate Hfine].
  cbn. eexists. split; [reflexivity|].
  split; [eexists _, _, _, _; reflexivity|]. repeat split.
Qed.

Lemma capture_appends_unflagged (output_dir : string) (penv : page_env)
    (s : episode) (r : CapturedStep.t) :
  hands_over penv s = false ->
  ep_steps (snd (on_step_end output_dir penv s)) = ep_steps s ++ [r] ->
  captured_record r /\ CapturedStep.required_manual_login r = false.
Proof.
  assert (Hsame : forall l : list CapturedStep.t, l = l ++ [r] -> False).
  { intros l Hl. apply (f_equal length) in Hl. rewrite length_app in Hl.
    cbn in Hl. lia. }
  destruct s as [w [n st lh wl] wf asg]; destruct wf.
  destruct penv as [bs ti pa ia ra sa ma nd nt].
  unfold hands_over, sees_login, observed_url, observed_title, handoff_failure,
    latch, ep_steps; unfold_hook; cbn.
  destruct bs as [state|e0]; cbn; [|intros _ Happ; destruct (Hsame _ Happ)].
  destruct ti as [title|e0]; cbn; [|intros _ Happ; destruct (Hsame _ Happ)].
  destruct (is_login_page _ _ && negb lh) eqn:E; cbn.
  - destruct pa as [[]|e0]; cbn; [|intros _ Happ; destruct (Hsame _ Happ)].
    destruct ia as [[]|e0]; cbn; [|intros _ Happ; destruct (Hsame _ Happ)].
    destruct ra as [[]|e0]; cbn; [|intros _ Happ; destruct (Hsame _ Happ)].
    discriminate.
  - destruct sa as [[b|t|t]|e0]; cbn; try destruct (b64decode t) as [b|e0]; cbn.
    all: try (intros _ Happ; destruct (Hsame _ Happ); fail).
    all: destruct ma as [actions|e0]; cbn.
    all: try (intros _ Happ; destruct (Hsame _ Happ); fail).
    all: destruct (describe_actions actions) as [a d]; cbn.
    all: intros _ Happ; apply app_inv_head in Happ; injection Happ as <-.
    all: split; [eexists _, _, _, _, _, _, _; reflexivity|reflexivity].
Qed.

(** C3.  A step boundary that hands the page over to the user appends one
    record, the record of a manual login: labelled ["manual_login"],
    with the empty screenshot reference, [success = true] and
    [required_manual_login = true].  Every record appended by any other
    step boundary is the record of a captured step, with
    [required_manual_login = false].  The trace of the returned workflow
    is made of these two kinds of records only. *)
Theorem manual_login_record_shape
    (api_key : option string) (user_input : string) (env : task_env) (w : world) :
  api_key_missing api_key = false ->
  (forall output_dir penv s,
     hands_over penv s = true ->
     exists r,
       ep_steps (snd (on_step_end output_dir penv s)) = ep_steps s ++ [r]
       /\ handoff_record r)
  /\ (forall output_dir penv s r,
        hands_over penv s = false ->
        ep_steps (snd (on_step_end output_dir penv s)) = ep_steps s ++ [r] ->
        captured_record r /\ CapturedStep.required_manual_login r = false)
  /\ exists wf w',
       execute_task api_key user_input env w = (Ok wf, w')
       /\ Forall from_hook (CapturedWorkflow.steps wf).
Proof.
  intros Hkey.
  split; [intros; apply handoff_appends_record; assumption|].
  split; [intros output_dir penv s r; apply capture_appends_unflagged|].
  destruct (execute_task_spec api_key user_input env w Hkey) as (w' & Hrun & _).
  eexists _, w'. split; [exact Hrun|].
  change (CapturedWorkflow.steps (workflow (finalized user_input env w)))
    with (ep_steps (finalized user_input env w)).
  rewrite finalized_steps. unfold hooked.
  apply after_hooks_from_hook.
  destruct (announced_fresh user_input env w) as [[_ ->] _]. constructor.
Qed.

End Calls.

Lemma manual_login_record_shape_witness :
  let env := Scenario.task Scenario.three_steps (Ok (Scenario.done "done")) in
  let penv := Scenario.page Scenario.login "Log in to Linear" 43204000000%Z in
  let s' := snd (@on_step_end Scenario.runtime Scenario.dir penv Scenario.start) in
  api_key_missing (Some "key") = false
  /\ hands_over penv Scenario.start = true
  /\ (exists r, ep_steps s' = ep_steps Scenario.start ++ [r] /\ handoff_record r)
  /\ exists wf w',
       @execute_task Scenario.runtime (Some "key") Scenario.query env empty_world
       = (Ok wf, w')
       /\ Forall from_hook (CapturedWorkflow.steps wf).
Proof.
  intros env penv s'.
  destruct (@manual_login_record_shape Scenario.runtime (Some "key") Scenario.query
              env empty_world eq_refl) as (Hhand & _ & Htrace).
  split; [reflexivity|]. split; [reflexivity|].
  split; [exact (Hhand Scenario.dir penv Scenario.start eq_refl)|exact Htrace].
Defined.

Lemma no_login_page_no_pause_witness :
  let calls := [ StepStart 43201000000%Z;
                 StepEnd (Scenario.page Scenario.board "Team Board" 43202000000%Z) ] in
  let env := Scenario.task calls (Ok (Scenario.done "done")) in
  api_key_missing (Some "key") = false
  /\ (forall penv, StepEnd penv ∈ hook_calls env -> sees_login penv = false)
  /\ exists wf w',
       @execute_task Scenario.runtime (Some "key") Scenario.query env empty_world
       = (Ok wf, w')
       /\ driver w' = driver empty_world
       /\ manual_steps (CapturedWorkflow.steps wf) = [].
Proof.
  intros calls env.
  assert (Hno : forall penv, StepEnd penv ∈ hook_calls env -> sees_login penv = false).
  { intros penv Hin. cbn in Hin.
    apply elem_of_cons in Hin as [Hin|Hin]; [discriminate Hin|].
    apply list_elem_of_singleton in Hin. injection Hin as ->. reflexivity. }
  split; [reflexivity|]. split; [exact Hno|].
  exact (@no_login_page_no_pause Scenario.runtime (Some "key") Scenario.query env
           empty_world eq_refl Hno).
Defined.

Lemma failed_handoff_is_abandoned_witness :
  let penv := page_read_raises Scenario.login "Log in to Linear" 43202000000%Z in
  let s' := snd (@on_step_end Scenario.runtime Scenario.dir penv Scenario.start) in
  sees_login penv = true
  /\ latch Scenario.start = false
  /\ handoff_failure penv = Some (Exception "EOF when reading a line")
  /\ fst (@on_step_end Scenario.runtime Scenario.dir penv Scenario.start) = Ok tt
  /\ ep_driver s' = ep_driver Scenario.start ++ [Pause; ReadInput]
  /\ waiting s' = true
  /\ latch s' = false
  /\ ep_steps s' = ep_steps Scenario.start.
Proof.
  intros penv s'. split; [reflexivity|]. split; [reflexivity|]. split; [reflexivity|].
  exact (@failed_handoff_is_abandoned Scenario.runtime Scenario.dir penv
           Scenario.start (Exception "EOF when reading a line")
           eq_refl eq_refl eq_refl).
Defined.

(** ** The task around its run *)

Section Around.
Context `{Runtime}.

(** Without the API key nothing is started: [execute_task], the loop
    over a non-empty batch and [main] raise the configuration error and
    leave the world untouched, with no directory created and nothing
    printed. *)
Theorem missing_key_starts_nothing (api_key : option string) :
  api_key_missing api_key = true ->
  let error := Exception "Missing GOOGLE_API_KEY" in
  (forall user_input env w,
     execute_task api_key user_input env w = (Raise error, w))
  /\ (forall task rest w,
        run_tasks api_key (task :: rest) w = (Raise error, w))
  /\ (forall env_of kill_answer w,
        main api_key env_of kill_answer w = (Raise error, w)).
Proof.
  intros Hkey error.
  assert (Hexec : forall user_input env w,
             execute_task api_key user_input env w = (Raise error, w)).
  { intros. unfold execute_task. rewrite Hkey. reflexivity. }
  split; [exact Hexec|]. split.
  - intros [task env] rest w. cbn [run_tasks]. rewrite Hexec. reflexivity.
  - intros env_of kill_answer w. unfold main. rewrite Hkey. reflexivity.
Qed.

(** Whatever the agent does at its step boundaries and however its run
    ends, the workflow [execute_task] returns keeps the identity given
    to it before the agent started: the request, the task identifier,
    the instruction, the application and the start time. *)
Theorem workflow_keeps_identity
    (api_key : option string) (user_input : string) (env : task_env) (w : world) :
  api_key_missing api_key = false ->
  exists wf w',
    execute_task api_key user_input env w = (Ok wf, w')
    /\ identifies user_input env wf.
Proof.
  intros Hkey.
  destruct (execute_task_spec api_key user_input env w Hkey) as (w' & Hexec & _).
  eexists _, w'. split; [exact Hexec|].
  pose proof (finalized_cases user_input env w) as Hcases. cbn zeta in Hcases.
  destruct (hooked_frame user_input env w) as [Hw _].
  assert (Hnew : identifies user_input env
                   (CapturedWorkflow.set_steps (ep_steps (hooked user_input env w))
                      (new_workflow user_input env))).
  { unfold identifies, new_workflow. destruct (detect_app user_input).
    repeat split. }
  rewrite <- Hw in Hnew. unfold identifies in *.
  destruct (run_answer env) as [result|e];
    [destruct (final_text result) as [text|e]|];
    destruct Hcases as [-> _]; exact Hnew.
Qed.

(** A task whose run returns a result with a text is completed at the
    time read after the run, and its total duration is that time less
    the start time of the task. *)
Theorem returned_task_duration
    (api_key : option string) (user_input : string) (env : task_env) (w : world)
    (result : run_result) (text : string) :
  api_key_missing api_key = false ->
  run_answer env = Ok result ->
  final_text result = Ok text ->
  exists wf w',
    execute_task api_key user_input env w = (Ok wf, w')
    /\ CapturedWorkflow.completed_at wf = Some (now_completed env)
    /\ CapturedWorkflow.total_duration_seconds wf
       = Some (now_completed env - now_started env)%Z.
Proof.
  intros Hkey Hrun Htext.
  destruct (execute_task_spec api_key user_input env w Hkey) as (w' & Hexec & _).
  eexists _, w'. split; [exact Hexec|].
  pose proof (finalized_cases user_input env w) as Hcases. cbn zeta in Hcases.
  rewrite Hrun, Htext in Hcases. destruct Hcases as [-> _].
  destruct (hooked_frame user_input env w) as [-> _].
  unfold new_workflow. destruct (detect_app user_input). split; reflexivity.
Qed.


(** A step captured right after [on_step_start] carries as duration the
    time from that start to the capture. *)
Theorem captured_step_duration
    (output_dir : string) (start : datetime) (penv : page_env) (s : episode)
    (r : CapturedStep.t) :
  let s' := after_hooks output_dir [StepStart start; StepEnd penv] s in
  ep_steps s' = ep_steps s ++ [r] ->
  CapturedStep.required_manual_login r = false ->
  CapturedStep.duration_ms r = Some (now_duration penv - start)%Z.
Proof.
  intros s'. subst s'. rewrite !after_hooks_cons, after_hooks_nil. cbn [run_hook].
  destruct (on_step_start_spec start s) as (s1 & Hs1 & _ & _ & _ & _ & Hst & _).
  assert (Htime : StepData.step_start_time (step_data s1) = Some start).
  { destruct s as [w0 [n st lh wl] wf asg]. unfold on_step_start in Hs1.
    unfold_hook; cbn in Hs1. injection Hs1 as <-. reflexivity. }
  rewrite Hs1. cbn [snd].
  pose proof (on_step_end_effect output_dir penv s1) as Heff.
  destruct Heff as [Heq _ _ _
                   | u t _ _ _ _ _ Heq _ _
                   | u t b actions _ _ _ _ _ _ Heq _];
    rewrite Heq, Hst; intros Happ Hcap.
  - apply (f_equal length) in Happ. rewrite length_app in Happ. cbn in Happ. lia.
  - apply app_inv_head in Happ. injection Happ as <-. discriminate Hcap.
  - apply app_inv_head in Happ. injection Happ as <-. cbn. rewrite Htime. reflexivity.
Qed.

End Around.

Lemma missing_key_starts_nothing_witness :
  let error := Exception "Missing GOOGLE_API_KEY" in
  api_key_missing None = true
  /\ (forall user_input env w,
        @execute_task Scenario.runtime None user_input env w = (Raise error, w))
  /\ (forall task rest w,
        @run_tasks Scenario.runtime None (task :: rest) w = (Raise error, w))
  /\ (forall env_of kill_answer w,
        @main Scenario.runtime None env_of kill_answer w = (Raise error, w)).
Proof.
  intros error. split; [reflexivity|].
  exact (@missing_key_starts_nothing Scenario.runtime None eq_refl).
Defined.

Lemma workflow_keeps_identity_witness :
  let env := Scenario.task Scenario.three_steps (Raise (Exception "agent crashed")) in
  api_key_missing (Some "key") = false
  /\ exists wf w',
       @execute_task Scenario.runtime (Some "key") Scenario.query env empty_world
       = (Ok wf, w')
       /\ @identifies Scenario.runtime Scenario.query env wf.
Proof.
  intros env. split; [reflexivity|].
  apply (@workflow_keeps_identity Scenario.runtime (Some "key") Scenario.query env
           empty_world). reflexivity.
Defined.

Lemma returned_task_duration_witness :
  let env := Scenario.task Scenario.three_steps (Ok (Scenario.done "done")) in
  api_key_missing (Some "key") = false
  /\ run_answer env = Ok (Scenario.done "done")
  /\ final_text (Scenario.done "done") = Ok "done"
  /\ exists wf w',
       @execute_task Scenario.runtime (Some "key") Scenario.query env empty_world
       = (Ok wf, w')
       /\ CapturedWorkflow.completed_at wf = Some 43260000000%Z
       /\ CapturedWorkflow.total_duration_seconds wf = Some 60000000%Z.
Proof.
  intros env. split; [reflexivity|]. split; [reflexivity|]. split; [reflexivity|].
  exact (@returned_task_duration Scenario.runtime (Some "key") Scenario.query env
           empty_world (Scenario.done "done") "done" eq_refl eq_refl eq_refl).
Defined.


Lemma captured_step_duration_witness :
  let penv := Scenario.page Scenario.board "Team Board" 43202000000%Z in
  let r := captured_step 1 43202000000%Z "initial" "Initial state" Scenario.board
             "Team Board" (screenshot_filename 1) (Some 1000000%Z) in
  let s' := @after_hooks Scenario.runtime Scenario.dir
              [StepStart 43201000000%Z; StepEnd penv] Scenario.start in
  ep_steps s' = ep_steps Scenario.start ++ [r]
  /\ CapturedStep.required_manual_login r = false
  /\ CapturedStep.duration_ms r = Some (43202000000 - 43201000000)%Z.
Proof.
  intros penv r s'. split; [reflexivity|]. split; [reflexivity|].
  exact (@captured_step_duration Scenario.runtime Scenario.dir 43201000000%Z penv
           Scenario.start r eq_refl eq_refl).
Defined.

(** ** The files a task touches *)

Section Files.
Context `{Runtime}.

Lemma outside_write (dir name path : string) (f : file) (files : gmap string file) :
  ~ inside dir path ->
  <[path_join dir name := f]> files !! path = files !! path.
Proof.
  intros Hout. apply lookup_insert_ne. intros <-. apply Hout. right. right. eauto.
Qed.

Lemma outside_boundary (output_dir : string) (env : page_env) (s s' : episode)
    (path : string) :
  ~ inside output_dir path ->
  boundary_effect output_dir env s s' ->
  fs (ep_world s') !! path = fs (ep_world s) !! path.
Proof.
  intros Hout Heff.
  destruct Heff as [_ _ [Hfs|[b Hfs]] _
                   | u t _ _ _ _ _ _ Hfs _
                   | u t b actions _ _ _ _ _ _ _ Hfs]; rewrite Hfs;
    try reflexivity; apply outside_write, Hout.
Qed.

(** For a request written in ASCII characters, where the slug in the
    name of the directory is the one the program computes,
    [execute_task] writes the parent [ui_dataset], the directory of its
    episode and files in that directory, and nothing else: any other
    path holds after the task what it held before. *)
Theorem execute_task_writes_inside
    (api_key : option string) (user_input : string) (env : task_env) (w : world) :
  api_key_missing api_key = false ->
  all_chars is_ascii user_input = true ->
  exists wf w',
    execute_task api_key user_input env w = (Ok wf, w')
    /\ forall path,
         ~ inside (output_dir_of user_input env) path ->
         fs w' !! path = fs w !! path.
Proof.
  intros Hkey _.
  destruct (execute_task_world api_key user_input env w Hkey) as (w' & Hexec & Hfs & _).
  eexists _, w'. split; [exact Hexec|].
  intros path Hout. rewrite Hfs, outside_write by exact Hout.
  unfold hooked.
  transitivity (fs (ep_world (announced user_input env w)) !! path).
  - apply (after_hooks_invariant (output_dir_of user_input env)
             (fun s => fs (ep_world s) !! path
                       = fs (ep_world (announced user_input env w)) !! path)).
    + intros s now Hs.
      destruct (on_step_start_spec now s) as (s' & -> & _ & _ & _ & _ & _ & Hw).
      cbn. rewrite Hw. exact Hs.
    + intros s penv Hs. rewrite <- Hs.
      eapply outside_boundary; [exact Hout|]. apply on_step_end_effect.
    + reflexivity.
  - destruct (announced_world user_input env w) as [-> _].
    rewrite !lookup_insert_ne; [reflexivity| |].
    + intros <-. apply Hout. left. reflexivity.
    + intros <-. apply Hout. right. left. reflexivity.
Qed.

End Files.

Lemma execute_task_writes_inside_witness :
  let env := Scenario.task Scenario.three_steps (Ok (Scenario.done "done")) in
  api_key_missing (Some "key") = false
  /\ all_chars is_ascii Scenario.query = true
  /\ exists wf w',
       @execute_task Scenario.runtime (Some "key") Scenario.query env empty_world
       = (Ok wf, w')
       /\ forall path,
            ~ inside (@output_dir_of Scenario.runtime Scenario.query env) path ->
            fs w' !! path = fs empty_world !! path.
Proof.
  intros env. split; [reflexivity|]. split; [reflexivity|].
  exact (@execute_task_writes_inside Scenario.runtime (Some "key") Scenario.query
           env empty_world eq_refl eq_refl).
Defined.

(** ** The agent after a manual login *)

Section Resumed.
Context `{Runtime}.

Lemma resumed_boundary (output_dir : string) (env : page_env) (s s' : episode) :
  boundary_effect output_dir env s s' ->
  (manual_steps (ep_steps s) <> [] -> latch s = true)
  /\ (latch s = true -> exists pre, ep_driver s = pre ++ [Pause; ReadInput; Resume]) ->
  (manual_steps (ep_steps s') <> [] -> latch s' = true)
  /\ (latch s' = true -> exists pre, ep_driver s' = pre ++ [Pause; ReadInput; Resume]).
Proof.
  intros Heff [Hman Hres].
  destruct Heff as [Hst Hl _ Hdr
                   | u t _ _ _ _ Hl' Hst _ Hdr
                   | u t b actions _ _ _ _ Hl Hdr Hst _].
  - rewrite Hst, Hl. split; [exact Hman|].
    intros Hset. rewrite Hdr; [auto|]. rewrite Hset. apply andb_false_r.
  - rewrite Hl', Hdr. split; [reflexivity|]. intros _. eauto.
  - rewrite Hst, Hl, Hdr, manual_steps_app. cbn. rewrite app_nil_r. auto.
Qed.

(** When the trace [execute_task] returns holds a manual-login record,
    the last calls made on the agent and the console are the pause, the
    read and the resume of that handoff: the agent is left resumed, and
    nothing pauses it again. *)
Theorem manual_login_leaves_agent_resumed
    (api_key : option string) (user_input : string) (env : task_env) (w : world) :
  api_key_missing api_key = false ->
  exists wf w',
    execute_task api_key user_input env w = (Ok wf, w')
    /\ (manual_steps (CapturedWorkflow.steps wf) <> [] ->
        exists pre, driver w' = pre ++ [Pause; ReadInput; Resume]).
Proof.
  intros Hkey.
  destruct (execute_task_world api_key user_input env w Hkey) as (w' & Hexec & _ & Hdr).
  eexists _, w'. split; [exact Hexec|].
  change (CapturedWorkflow.steps (workflow (finalized user_input env w)))
    with (ep_steps (finalized user_input env w)).
  rewrite finalized_steps, Hdr. unfold hooked.
  assert (Hinv :
    (fun s => (manual_steps (ep_steps s) <> [] -> latch s = true)
              /\ (latch s = true ->
                  exists pre, ep_driver s = pre ++ [Pause; ReadInput; Resume]))
      (after_hooks (output_dir_of user_input env) (hook_calls env)
         (announced user_input env w))).
  { apply after_hooks_invariant.
    - intros s now Hs.
      destruct (on_step_start_spec now s) as (s' & -> & _ & _ & Hl & _ & Hst & Hw).
      cbn. unfold ep_driver. rewrite Hst, Hl, Hw. exact Hs.
    - intros s penv Hs. eapply resumed_boundary; [|exact Hs].
      apply on_step_end_effect.
    - destruct (announced_fresh user_input env w) as [[Hsd Hnil] _].
      unfold latch. rewrite Hnil, Hsd. cbn. split; [congruence|discriminate]. }
  cbn beta in Hinv. destruct Hinv as [Hman Hres]. auto.
Qed.

End Resumed.

Lemma manual_login_leaves_agent_resumed_witness :
  let env := Scenario.task Scenario.three_steps (Ok (Scenario.done "done")) in
  api_key_missing (Some "key") = false
  /\ exists wf w',
       @execute_task Scenario.runtime (Some "key") Scenario.query env empty_world
       = (Ok wf, w')
       /\ (manual_steps (CapturedWorkflow.steps wf) <> [] ->
           exists pre, driver w' = pre ++ [Pause; ReadInput; Resume]).
Proof.
  intros env. split; [reflexivity|].
  apply (@manual_login_leaves_agent_resumed Scenario.runtime (Some "key")
           Scenario.query env empty_world). reflexivity.
Defined.

(** ** Batches in sequence *)

